(** * asdcontrol: Apple Studio Display brightness control

    A shallow embedding of [asdcontrol.cpp] (both revisions kept in the
    repository) and the properties of its token classifier, its value
    resolution and its per-device hiddev transaction.

    Conventions of the embedding:
    - a C string is a [string]; the bytes after a NUL character, if any, are
      not part of the C string, so every loop stops at the first NUL as the
      source loops do ([for (c = *str; c; c = *++str)]);
    - [char] is the signed 8-bit type of the Linux targets of the program;
    - [int] is a 32-bit two's complement integer, carried as a [Z] and
      brought back into range by [to_int] after every arithmetic operation
      (as the generated code does; the C++ standard leaves signed overflow
      undefined, and the theorems that depend on arithmetic say in their
      hypotheses that the values stay in range);
    - the kernel (open, ioctl) is an oracle: the answers it gives are
      arbitrary, and the program's run is a trace of the calls it made
      together with the way the process ended. *)

From Stdlib Require Import ZArith List Bool String Ascii Lia.
Import ListNotations.
Local Open Scope string_scope.
Local Open Scope list_scope.
Local Open Scope Z_scope.

(** ** C characters and C integers *)

Module C.

Definition INT_MAX : Z := 2147483647.
Definition INT_MIN : Z := -2147483648.
Definition LONG_MAX : Z := 9223372036854775807.
Definition LONG_MIN : Z := -9223372036854775808.

(** Conversion to [int]: the value modulo 2^32, in [INT_MIN, INT_MAX]. *)
Definition to_int (z : Z) : Z := (z + 2147483648) mod 4294967296 - 2147483648.

Definition in_int (z : Z) : Prop := INT_MIN <= z <= INT_MAX.

Definition add (a b : Z) : Z := to_int (a + b).
Definition sub (a b : Z) : Z := to_int (a - b).
Definition mul (a b : Z) : Z := to_int (a * b).
(** C++ division truncates towards zero. *)
Definition div (a b : Z) : Z := to_int (Z.quot a b).

(** The value of a [char]: signed. *)
Definition char (c : ascii) : Z :=
  let n := Z.of_N (N_of_ascii c) in
  if n <? 128 then n else n - 256.

(** [*str]: the first character, NUL at the end of the string. *)
Definition deref (str : string) : ascii :=
  match str with
  | EmptyString => zero
  | String c _ => c
  end.

(** [++str], on a string that is not at its end. *)
Definition next (str : string) : string :=
  match str with
  | EmptyString => EmptyString
  | String _ rest => rest
  end.

Definition is_nul (c : ascii) : bool := char c =? 0.

(** [c >= '0' && c <= '9'] *)
Definition is_digit (c : ascii) : bool := (48 <=? char c) && (char c <=? 57).

Definition is_char (c d : ascii) : bool := char c =? char d.

(** [isspace] in the C locale. *)
Definition isspace (c : ascii) : bool :=
  (char c =? 32) || ((9 <=? char c) && (char c <=? 13)).

Fixpoint skip_space (s : string) : string :=
  match s with
  | String c rest => if isspace c then skip_space rest else s
  | EmptyString => s
  end.

(** The digit loop of [strtol] in base 10: the decimal value of the longest
    prefix of digits, accumulated from [acc]. *)
Fixpoint digit_run (acc : Z) (s : string) : Z :=
  match s with
  | String c rest =>
      if is_digit c then digit_run (10 * acc + (char c - 48)) rest else acc
  | EmptyString => acc
  end.

Definition saturate_long (z : Z) : Z := Z.max LONG_MIN (Z.min LONG_MAX z).

(** [strtol (s, NULL, 10)]: white space, an optional sign, digits; the result
    saturates at the bounds of [long]. *)
Definition strtol (s : string) : Z :=
  let s := skip_space s in
  if is_char (deref s) "-" then saturate_long (- digit_run 0 (next s))
  else if is_char (deref s) "+" then saturate_long (digit_run 0 (next s))
  else saturate_long (digit_run 0 s).

(** [atoi] is the C library's; glibc defines it as [(int) strtol (s, NULL, 10)]. *)
Definition atoi (s : string) : Z := to_int (strtol s).

(** [std::min] and [std::max] on [int]. *)
Definition min (a b : Z) : Z := if b <? a then b else a.
Definition max (a b : Z) : Z := if a <? b then b else a.

End C.

(** ** The token classifier *)

(** The loop of [number] after the first character:
    [for (c = *str; c; c = *++str)]. *)
Fixpoint number_loop (hasPercent : bool) (str : string) : bool :=
  match str with
  | EmptyString => true
  | String c rest =>
      if C.is_nul c then true
      else if C.is_char c "%" && negb hasPercent then number_loop true rest
      else if hasPercent then false
      else if (C.char c <? 48) || (57 <? C.char c) then false
      else number_loop hasPercent rest
  end.

(** [bool number (const char* str)]; [None] is the null pointer. *)
Definition number_ptr (str : option string) : bool :=
  match str with
  | None => false
  | Some str =>
      let c := C.deref str in
      if negb (C.is_digit c || C.is_char c "+" || C.is_char c "-") then false
      else number_loop false (C.next str)
  end.

(** [number] on an element of [argv], which is never null. *)
Definition number (str : string) : bool := number_ptr (Some str).

Fixpoint isPercent_loop (hasPercent : bool) (str : string) : bool :=
  match str with
  | EmptyString => hasPercent
  | String c rest =>
      if C.is_nul c then hasPercent
      else if C.is_char c "%" && negb hasPercent then isPercent_loop true rest
      else if hasPercent then false
      else isPercent_loop hasPercent rest
  end.

(** [bool isPercent (const char* str)] *)
Definition isPercent_ptr (str : option string) : bool :=
  match str with
  | None => false
  | Some str => isPercent_loop false str
  end.

Definition isPercent (str : string) : bool := isPercent_ptr (Some str).

(** The older revision, [asdcontrol.cpp]. Its loop starts at the first
    character again: the source has no [++str] before it. *)
Module Legacy.

Fixpoint number_loop (str : string) : bool :=
  match str with
  | EmptyString => true
  | String c rest =>
      if C.is_nul c then true
      else if negb ((48 <=? C.char c) && (C.char c <=? 57)) then false
      else number_loop rest
  end.

Definition number_ptr (str : option string) : bool :=
  match str with
  | None => false
  | Some str =>
      let c := C.deref str in
      if negb (C.is_digit c || C.is_char c "+" || C.is_char c "-") then false
      else number_loop str
  end.

Definition number (str : string) : bool := number_ptr (Some str).

End Legacy.

(** ** The device database *)

Inductive usage_mode : Set :=
| USAGE_MODE_GET
| USAGE_MODE_SET
| USAGE_MODE_DETECT
| USAGE_MODE_SETREL.

Definition usage_mode_eqb (a b : usage_mode) : bool :=
  match a, b with
  | USAGE_MODE_GET, USAGE_MODE_GET
  | USAGE_MODE_SET, USAGE_MODE_SET
  | USAGE_MODE_DETECT, USAGE_MODE_DETECT
  | USAGE_MODE_SETREL, USAGE_MODE_SETREL => true
  | _, _ => false
  end.

Definition BRIGHTNESS_CONTROL : Z := 1.
Definition USAGE_CODE : Z := 0x820001.
Definition APPLE : Z := 0x05ac.
Definition STUDIO_DISPLAY_27 : Z := 0x1114.

Record DeviceId : Set := mkDeviceId {
  vendor : Z;
  product : Z;
  description : string;
  brightness_min : Z;
  brightness_max : Z
}.

(** [DeviceId::operator <] *)
Definition DeviceId_lt (a b : DeviceId) : bool :=
  (vendor a <? vendor b) || ((vendor a =? vendor b) && (product a <? product b)).

(** [std::set<DeviceId>]: the elements in increasing order, no two of them
    equivalent for [operator <]. *)
Definition SupportedDevices : Set := list DeviceId.

Fixpoint set_insert (x : DeviceId) (s : SupportedDevices) : SupportedDevices :=
  match s with
  | [] => [x]
  | y :: rest =>
      if DeviceId_lt x y then x :: s
      else if DeviceId_lt y x then y :: set_insert x rest
      else s
  end.

Fixpoint set_find (x : DeviceId) (s : SupportedDevices) : option DeviceId :=
  match s with
  | [] => None
  | y :: rest =>
      if DeviceId_lt x y || DeviceId_lt y x then set_find x rest else Some y
  end.

(** [std::map<Vendor, string>] *)
Definition SupportedVendors : Set := list (Z * string).

Fixpoint map_insert (kv : Z * string) (m : SupportedVendors) : SupportedVendors :=
  match m with
  | [] => [kv]
  | (k, v) :: rest =>
      if fst kv <? k then kv :: m
      else if k <? fst kv then (k, v) :: map_insert kv rest
      else m
  end.

Fixpoint map_find (k : Z) (m : SupportedVendors) : option string :=
  match m with
  | [] => None
  | (k', v) :: rest => if k =? k' then Some v else map_find k rest
  end.

Record database : Set := {
  supportedDevices : SupportedDevices;
  supportedVendors : SupportedVendors
}.

(** [void init_device_database ()], on the empty globals. *)
Definition init_device_database : database :=
  {| supportedVendors := map_insert (APPLE, "Apple") [];
     supportedDevices :=
       set_insert (mkDeviceId APPLE STUDIO_DISPLAY_27
                     ("Apple Studio Display (2022, 27"
                        ++ String (ascii_of_nat 34) ")")%string 400 60000) [] |}.

(** ** The kernel side: hiddev *)

Inductive open_flags : Set := O_RDONLY | O_RDWR.

(** The ioctl requests the program issues, with the arguments that matter. *)
Inductive request : Set :=
| HIDIOCGVERSION
| HIDIOCGDEVINFO
| HIDIOCAPPLICATION (appl_num : nat)
| HIDIOCINITREPORT
| HIDIOCSUSAGE (value : Z)
| HIDIOCSREPORT
| HIDIOCGUSAGE
| HIDIOCGREPORT.

(** What the kernel answers on one open handle. The program asks for the
    usage at most twice and sets it at most once per handle. *)
Record hiddev : Type := {
  hd_gversion : Z;              (* return code *)
  hd_version : Z;               (* [version] after the call *)
  hd_gdevinfo : Z;              (* return code *)
  hd_vendor : Z;                (* [device_info.vendor] after the call *)
  hd_product : Z;
  hd_num_applications : nat;
  hd_application : nat -> Z;    (* return code: the application identifier *)
  hd_initreport : Z;
  hd_susage : Z -> Z;           (* return code, for the value given *)
  hd_sreport : Z;
  hd_gusage : nat -> Z * Z;     (* n-th call: return code, [usage_ref.value] *)
  hd_greport : nat -> Z
}.

(** [open]: the n-th call of the run, on a path with flags, returns a
    descriptor (negative on failure) and the device behind it. *)
Definition kernel : Type := nat -> string -> open_flags -> Z * hiddev.

Inductive message : Set :=
| MsgHelp
| MsgNotice
| MsgDriverVersion (major minor patch : Z)
| MsgPerror (what : string)
| MsgDetected (path : string) (supported : bool) (v p : Z)
| MsgUnsupported (v p : Z)
| MsgNotMonitor (path : string)
| MsgFatalInit
| MsgBrightness (path : option string) (value : Z).

Inductive event : Set :=
| Open (path : string) (flags : open_flags) (fd : Z)
| Ioctl (fd : Z) (req : request) (rc : Z)
| Close (fd : Z)
| Stdout (m : message)
| Stderr (m : message).

(** How the process ends: [exit (status)] (falling off the end of [main] is
    status 0), or the dereference of a null [selected_device]. *)
Inductive outcome : Set :=
| Exited (status : Z)
| NullPointer.

(** ** Sequencing: a trace of events, [continue] and [exit] *)

Inductive flow (A : Type) : Type :=
| Normal (a : A)         (* the statement ran to its end *)
| Continue               (* [continue]: on to the next device path *)
| Stop (o : outcome).    (* the process is over *)

Arguments Normal {A} a.
Arguments Continue {A}.
Arguments Stop {A} o.

Definition proc (A : Type) : Type := list event * flow A.

Definition ret {A} (a : A) : proc A := ([], Normal a).

Definition bind {A B} (m : proc A) (f : A -> proc B) : proc B :=
  match snd m with
  | Normal a => (fst m ++ fst (f a), snd (f a))
  | Continue => (fst m, Continue)
  | Stop o => (fst m, Stop o)
  end.

Notation "x <- m ;; k" := (bind m (fun x => k))
  (at level 61, m at next level, right associativity).
Notation "m ;; k" := (bind m (fun _ => k))
  (at level 61, right associativity).

Definition emit (e : event) : proc unit := ([e], Normal tt).
Definition continue {A} : proc A := ([], Continue).
Definition exit {A} (status : Z) : proc A := ([], Stop (Exited status)).
Definition null_dereference {A} : proc A := ([], Stop NullPointer).
Definition when (b : bool) (m : proc unit) : proc unit := if b then m else ret tt.

(** A pointer used as a condition. *)
Definition non_null {A} (p : option A) : bool :=
  match p with
  | Some _ => true
  | None => false
  end.

(** [ioctl (fd, req, ...)], the return code left to the caller. *)
Definition ioctl (fd : Z) (req : request) (rc : Z) : proc Z :=
  emit (Ioctl fd req rc);; ret rc.

(** ** The program *)

Record options : Set := {
  brief : bool;
  silent : bool;
  force : bool;
  detect : bool   (* [--detect]: [mode = USAGE_MODE_DETECT] before the arguments *)
}.

(** The locals of [main] that the argument loop and the device loop change. *)
Record vars : Set := mkVars {
  mode : usage_mode;
  brightness : Z;
  amount : Z;
  percent : bool;
  first_device : bool;
  files : list string
}.

Definition initial_vars (o : options) : vars :=
  {| mode := if detect o then USAGE_MODE_DETECT else USAGE_MODE_GET;
     brightness := 0; amount := 0; percent := false;
     first_device := true; files := [] |}.

(** One round of [for (int param = optind; param < argc; ++param)]. *)
Definition parse_param (v : vars) (arg : string) : vars :=
  if negb (usage_mode_eqb (mode v) USAGE_MODE_DETECT) && number arg then
    if C.is_char (C.deref arg) "+" || C.is_char (C.deref arg) "-" then
      mkVars USAGE_MODE_SETREL (brightness v) (C.atoi arg) (isPercent arg)
             (first_device v) (files v)
    else
      mkVars USAGE_MODE_SET (C.atoi arg) (amount v) (isPercent arg)
             (first_device v) (files v)
  else
    mkVars (mode v) (brightness v) (amount v) (percent v)
           (first_device v) (files v ++ [arg]).

Definition parse_params (v : vars) (args : list string) : vars :=
  fold_left parse_param args v.

Section Program.

Variable db : database.

(** [const DeviceId* is_supported (const hiddev_devinfo&)] *)
Definition is_supported (d : hiddev) : option DeviceId :=
  let product := Z.land (hd_product d) 0xFFFF in
  let vendor := Z.land (hd_vendor d) 0xFFFF in
  set_find (mkDeviceId vendor product "" 0 255) (supportedDevices db).

(** [bool known_vendor (Vendor v)] *)
Definition known_vendor (v : Z) : bool :=
  match map_find (Z.land v 0xFFFF) (supportedVendors db) with
  | Some _ => true
  | None => false
  end.

(** The loop of [is_usb_monitor], from application [appl_num], with
    [todo] applications left. *)
Fixpoint is_usb_monitor_loop (d : hiddev) (fd : Z) (appl_num todo : nat) : proc bool :=
  match todo with
  | O => ret false
  | S todo =>
      application <- ioctl fd (HIDIOCAPPLICATION appl_num) (hd_application d appl_num);;
      if Z.land (Z.shiftr application 16) 0xFF =? 0x80 then ret true
      else is_usb_monitor_loop d fd (S appl_num) todo
  end.

(** [bool is_usb_monitor (const hiddev_devinfo&, int fd)] *)
Definition is_usb_monitor (d : hiddev) (fd : Z) : proc bool :=
  is_usb_monitor_loop d fd 0 (hd_num_applications d).

(** The block [if (percent) { ... }]: it rewrites [brightness] or [amount]. *)
Definition scale_percent (selected_device : option DeviceId) (v : vars) : proc vars :=
  if percent v then
    match selected_device with
    | None => null_dereference
    | Some dev =>
        let span := C.sub (brightness_max dev) (brightness_min dev) in
        if amount v =? 0 then
          ret (mkVars (mode v)
                 (C.add (C.div (C.mul (C.min (C.max (brightness v) 0) 100) span) 100)
                        (brightness_min dev))
                 (amount v) (percent v) (first_device v) (files v))
        else
          ret (mkVars (mode v) (brightness v)
                 (C.div (C.mul (amount v) span) 100)
                 (percent v) (first_device v) (files v))
    end
  else ret v.

(** The set pair: [HIDIOCSUSAGE] then [HIDIOCSREPORT]. *)
Definition set_brightness (d : hiddev) (fd value : Z) : proc unit :=
  rc <- ioctl fd (HIDIOCSUSAGE value) (hd_susage d value);;
  when (rc <? 0) (emit (Stderr (MsgPerror "Cannot set brightness"));; exit 2);;
  rc <- ioctl fd HIDIOCSREPORT (hd_sreport d);;
  when (rc <? 0) (emit (Stderr (MsgPerror "Cannot read brightness"));; exit 3).

(** The get pair, for the [n]-th time on this handle: [HIDIOCGUSAGE] then
    [HIDIOCGREPORT]; the result is [usage_ref.value]. *)
Definition get_brightness (d : hiddev) (fd : Z) (n : nat) : proc Z :=
  rc <- ioctl fd HIDIOCGUSAGE (fst (hd_gusage d n));;
  when (rc <? 0)
    (emit (Stderr (MsgPerror "Cannot ask monitor for brightness control"));; exit 2);;
  rc <- ioctl fd HIDIOCGREPORT (hd_greport d n);;
  when (rc <? 0) (emit (Stderr (MsgPerror "Cannot read brightness"));; exit 3);;
  ret (snd (hd_gusage d n)).

(** The clamp of the relative mode: [max (min_, b)] then [min (max_, b)]. *)
Definition clamp_relative (selected_device : option DeviceId) (b : Z) : proc Z :=
  match selected_device with
  | None => null_dereference
  | Some dev => ret (C.min (brightness_max dev) (C.max (brightness_min dev) b))
  end.

(** The second half of the body of the device loop, from [if (percent)] to
    [first_device = false]: scaling, the requests of the mode, [close]. The
    result is the locals for the next round. *)
Definition transaction (o : options) (selected_device : option DeviceId)
    (d : hiddev) (fd : Z) (path : string) (v : vars) : proc vars :=
  v <- scale_percent selected_device v;;
  v <- (if usage_mode_eqb (mode v) USAGE_MODE_SET then
          set_brightness d fd (brightness v);; ret v
        else
          value <- get_brightness d fd 0;;
          r <- (if usage_mode_eqb (mode v) USAGE_MODE_SETREL then
                  b <- clamp_relative selected_device (C.add value (amount v));;
                  set_brightness d fd b;;
                  value <- get_brightness d fd 1;;
                  ret (b, value)
                else ret (brightness v, value));;
          emit (Stdout (MsgBrightness
                          (if brief o then None else Some path) (snd r)));;
          ret (mkVars (mode v) (fst r) (amount v) (percent v)
                      (first_device v) (files v)));;
  emit (Close fd);;
  ret (mkVars (mode v) (brightness v) (amount v) (percent v) false (files v)).

(** The body of [for (FileList::iterator it = files.begin (); ...)], on the
    [n]-th path of the list: open, probe, the two gates, the initialisation
    of the report structures, then the transaction. *)
Definition process_device (o : options) (k : kernel) (open_mode : open_flags)
    (n : nat) (v : vars) (path : string) : proc vars :=
  let fd := fst (k n path open_mode) in
  let d := snd (k n path open_mode) in
  emit (Open path open_mode fd);;
  if fd <? 0 then emit (Stderr (MsgPerror path));; continue
  else
    ioctl fd HIDIOCGVERSION (hd_gversion d);;
    when (negb (silent o) && first_device v)
      (emit (Stdout (MsgDriverVersion (Z.shiftr (hd_version d) 16)
                       (Z.land (Z.shiftr (hd_version d) 8) 0xff)
                       (Z.land (hd_version d) 0xff))));;
    ioctl fd HIDIOCGDEVINFO (hd_gdevinfo d);;
    if usage_mode_eqb (mode v) USAGE_MODE_DETECT then
      monitor <- is_usb_monitor d fd;;
      when monitor
        (emit (Stdout (MsgDetected path
                         (non_null (is_supported d))
                         (Z.land (hd_vendor d) 0xFFFF)
                         (Z.land (hd_product d) 0xFFFF))));;
      continue
    else
      let selected_device := is_supported d in
      when (negb (non_null selected_device))
        (emit (Stderr (MsgUnsupported (Z.land (hd_vendor d) 0xFFFF)
                         (Z.land (hd_product d) 0xFFFF)));;
         when (negb (force o)) (exit 2));;
      monitor <- is_usb_monitor d fd;;
      if negb monitor then emit (Stderr (MsgNotMonitor path));; continue
      else
        rc <- ioctl fd HIDIOCINITREPORT (hd_initreport d);;
        when (rc <? 0) (emit (Stderr MsgFatalInit);; exit 1);;
        transaction o selected_device d fd path v.

(** The device loop, from the [n]-th path on. *)
Fixpoint device_loop (o : options) (k : kernel) (open_mode : open_flags)
    (n : nat) (v : vars) (paths : list string) : list event * outcome :=
  match paths with
  | [] => ([], Exited 0)
  | path :: rest =>
      let r := process_device o k open_mode n v path in
      match snd r with
      | Normal v' =>
          (fst r ++ fst (device_loop o k open_mode (S n) v' rest),
           snd (device_loop o k open_mode (S n) v' rest))
      | Continue =>
          (fst r ++ fst (device_loop o k open_mode (S n) v rest),
           snd (device_loop o k open_mode (S n) v rest))
      | Stop out => (fst r, out)
      end
  end.

(** [main], after [getopt_long] has read the options: [positional] is
    [argv[optind .. argc-1]]. *)
Definition run (o : options) (positional : list string) (k : kernel)
  : list event * outcome :=
  let v := parse_params (initial_vars o) positional in
  match files v with
  | [] => ([Stdout MsgHelp], Exited 1)
  | _ :: _ =>
      let open_mode :=
        if usage_mode_eqb (mode v) USAGE_MODE_SET
           || usage_mode_eqb (mode v) USAGE_MODE_SETREL
        then O_RDWR else O_RDONLY in
      let r := device_loop o k open_mode 0 v (files v) in
      ((if negb (silent o) then [Stdout MsgNotice] else []) ++ fst r, snd r)
  end.

End Program.

(** [main]: the database is the one [init_device_database] builds. *)
Definition main : options -> list string -> kernel -> list event * outcome :=
  run init_device_database.

(** ** Reading a token and a trace *)

(** The token starts with [+] or [-]: the test of the argument loop. *)
Definition signed (tok : string) : bool :=
  C.is_char (C.deref tok) "+" || C.is_char (C.deref tok) "-".

(** The digits of the token: after the sign when there is one. *)
Definition token_digits (tok : string) : string :=
  if signed tok then C.next tok else tok.

(** Magnitude and sign of a token, as [strtol] reads them. *)
Definition token_magnitude (tok : string) : Z := C.digit_run 0 (token_digits tok).
Definition token_sign (tok : string) : Z :=
  if C.is_char (C.deref tok) "-" then -1 else 1.

(** The locals as the argument loop leaves them after one path and one
    numeric token. *)
Definition parsed (path tok : string) : vars :=
  if signed tok
  then mkVars USAGE_MODE_SETREL 0 (C.atoi tok) (isPercent tok) true [path]
  else mkVars USAGE_MODE_SET (C.atoi tok) 0 (isPercent tok) true [path].

(** The values handed to [HIDIOCSUSAGE], in order. *)
Definition set_values (t : list event) : list Z :=
  flat_map (fun e => match e with
                     | Ioctl _ (HIDIOCSUSAGE value) _ => [value]
                     | _ => []
                     end) t.

(** The application identifiers the device enumerates. *)
Definition applications (d : hiddev) : list Z :=
  map (hd_application d) (seq 0 (hd_num_applications d)).

(** Bits 16 to 23 of an application identifier are 0x80. *)
Definition monitor_application (application : Z) : bool :=
  forallb (fun i => Bool.eqb (Z.testbit application (16 + Z.of_nat i))
                             (Z.testbit 0x80 (Z.of_nat i)))
          (seq 0 8).

Arguments monitor_application : simpl never.

(** The requests that write to the device. *)
Definition is_write (e : event) : bool :=
  match e with
  | Ioctl _ (HIDIOCSUSAGE _) _ | Ioctl _ HIDIOCSREPORT _ => true
  | _ => false
  end.

(** A [HIDIOCAPPLICATION] request on the descriptor. *)
Definition is_probe (fd : Z) (e : event) : bool :=
  match e with
  | Ioctl fd' (HIDIOCAPPLICATION _) _ => fd' =? fd
  | _ => false
  end.

Definition is_close (e : event) : bool :=
  match e with
  | Close _ => true
  | _ => false
  end.

Definition is_open (e : event) : bool :=
  match e with
  | Open _ _ _ => true
  | _ => false
  end.

Definition usage_request (req : request) : bool :=
  match req with
  | HIDIOCSUSAGE _ | HIDIOCGUSAGE => true
  | _ => false
  end.

Definition report_request (req : request) : bool :=
  match req with
  | HIDIOCSREPORT | HIDIOCGREPORT => true
  | _ => false
  end.

Definition init_request (req : request) : bool :=
  match req with
  | HIDIOCINITREPORT => true
  | _ => false
  end.

(** An ioctl of the given kind that returned a negative code. *)
Definition failed (kind : request -> bool) (e : event) : bool :=
  match e with
  | Ioctl _ req rc => kind req && (rc <? 0)
  | _ => false
  end.

Definition reports_unsupported (e : event) : bool :=
  match e with
  | Stderr (MsgUnsupported _ _) => true
  | _ => false
  end.

(** The status an event ends the process with, if it does. *)
Definition fatal (o : options) (e : event) : option Z :=
  if failed init_request e then Some 1
  else if failed usage_request e then Some 2
  else if failed report_request e then Some 3
  else if reports_unsupported e && negb (force o) then Some 2
  else None.

(** The exit statuses the events of a trace call for, in order. *)
Definition verdict (o : options) (t : list event) : list Z :=
  flat_map (fun e => match fatal o e with
                     | Some status => [status]
                     | None => []
                     end) t.

(** A step whose trace calls for exactly the status it exits with, and for
    none when it does not exit. *)
Definition aligned (o : options) {A} (m : proc A) : Prop :=
  verdict o (fst m) = match snd m with
                      | Stop (Exited status) => [status]
                      | _ => []
                      end.

(** The device gets as far as the transaction: it opens, it is supported or
    forced, it is a USB monitor and its report structures initialise. *)
Definition ready (db : database) (o : options) (fd : Z) (d : hiddev) : Prop :=
  0 <= fd /\
  (force o = true \/ is_supported db d <> None) /\
  existsb monitor_application (applications d) = true /\
  0 <= hd_initreport d.

(** ** Sample devices *)

(** A Studio Display that holds the brightness [cur] and accepts every
    request. *)
Definition studio_display (cur : Z) : hiddev :=
  {| hd_gversion := 0; hd_version := 0x010004; hd_gdevinfo := 0;
     hd_vendor := 0x05ac; hd_product := 0x1114;
     hd_num_applications := 2;
     hd_application := fun n => match n with O => 0x000c0001 | _ => 0x00800001 end;
     hd_initreport := 0; hd_susage := fun _ => 0; hd_sreport := 0;
     hd_gusage := fun _ => (0, cur); hd_greport := fun _ => 0 |}.

(** The same display behind a driver whose requests return the codes given. *)
Definition faulty_display (init susage sreport gusage greport : Z) : hiddev :=
  {| hd_gversion := 0; hd_version := 0x010004; hd_gdevinfo := 0;
     hd_vendor := 0x05ac; hd_product := 0x1114;
     hd_num_applications := 2;
     hd_application := fun n => match n with O => 0x000c0001 | _ => 0x00800001 end;
     hd_initreport := init; hd_susage := fun _ => susage; hd_sreport := sreport;
     hd_gusage := fun _ => (gusage, 30000); hd_greport := fun _ => greport |}.

(** An Apple keyboard: a known vendor, no Monitor Control application. *)
Definition keyboard : hiddev :=
  {| hd_gversion := 0; hd_version := 0x010004; hd_gdevinfo := 0;
     hd_vendor := 0x05ac; hd_product := 0x0250;
     hd_num_applications := 2;
     hd_application := fun n => match n with O => 0x00010006 | _ => 0x000c0001 end;
     hd_initreport := 0; hd_susage := fun _ => 0; hd_sreport := 0;
     hd_gusage := fun _ => (0, 0); hd_greport := fun _ => 0 |}.

(** A Studio Display by its identifiers that enumerates no Monitor Control
    application. *)
Definition display_without_monitor_application : hiddev :=
  {| hd_gversion := 0; hd_version := 0x010004; hd_gdevinfo := 0;
     hd_vendor := 0x05ac; hd_product := 0x1114;
     hd_num_applications := 1;
     hd_application := fun _ => 0x000c0001;
     hd_initreport := 0; hd_susage := fun _ => 0; hd_sreport := 0;
     hd_gusage := fun _ => (0, 30000); hd_greport := fun _ => 0 |}.

(** A USB monitor of another vendor, not in the database, that holds the
    brightness 100 and accepts every request. *)
Definition other_monitor : hiddev :=
  {| hd_gversion := 0; hd_version := 0x010004; hd_gdevinfo := 0;
     hd_vendor := 0x0471; hd_product := 0x0001;
     hd_num_applications := 1;
     hd_application := fun _ => 0x00800001;
     hd_initreport := 0; hd_susage := fun _ => 0; hd_sreport := 0;
     hd_gusage := fun _ => (0, 100); hd_greport := fun _ => 0 |}.

(** A Studio Display that holds 30000 and keeps multiples of 1000 only: after
    a write it reports 35000. *)
Definition granular_display : hiddev :=
  {| hd_gversion := 0; hd_version := 0x010004; hd_gdevinfo := 0;
     hd_vendor := 0x05ac; hd_product := 0x1114;
     hd_num_applications := 2;
     hd_application := fun n => match n with O => 0x000c0001 | _ => 0x00800001 end;
     hd_initreport := 0; hd_susage := fun _ => 0; hd_sreport := 0;
     hd_gusage := fun n => match n with O => (0, 30000) | _ => (0, 35000) end;
     hd_greport := fun _ => 0 |}.

(** A kernel with the same device behind every path; descriptors count up
    from 3. *)
Definition single (d : hiddev) : kernel := fun n _ _ => (3 + Z.of_nat n, d).

(** A kernel with a device per position of the path list. *)
Definition devices (ds : list hiddev) : kernel :=
  fun n _ _ => (3 + Z.of_nat n, nth n ds keyboard).

Definition plain : options :=
  {| brief := false; silent := true; force := false; detect := false |}.
Definition forced : options :=
  {| brief := false; silent := true; force := true; detect := false |}.
Definition detecting : options :=
  {| brief := false; silent := true; force := false; detect := true |}.

(** ** Vocabulary for the rest of the program *)

(** Every character of the string satisfies the test. *)
Fixpoint string_forall (p : ascii -> bool) (s : string) : bool :=
  match s with
  | EmptyString => true
  | String c rest => p c && string_forall p rest
  end.

(** The string is a C string as it stands: it holds no NUL. *)
Definition no_nul (s : string) : bool := string_forall (fun c => negb (C.is_nul c)) s.

Definition all_digits (s : string) : bool := string_forall C.is_digit s.

Definition no_percent (s : string) : bool :=
  string_forall (fun c => negb (C.is_char c "%")) s.

(** The argument loop of the older revision, [asdcontrol.cpp]: it has no
    percentages and calls the older [number]. *)
Module LegacyMain.

Definition parse_param (v : vars) (arg : string) : vars :=
  if negb (usage_mode_eqb (mode v) USAGE_MODE_DETECT) && Legacy.number arg then
    if C.is_char (C.deref arg) "+" || C.is_char (C.deref arg) "-" then
      mkVars USAGE_MODE_SETREL (brightness v) (C.atoi arg) (percent v)
             (first_device v) (files v)
    else
      mkVars USAGE_MODE_SET (C.atoi arg) (amount v) (percent v)
             (first_device v) (files v)
  else
    mkVars (mode v) (brightness v) (amount v) (percent v)
           (first_device v) (files v ++ [arg]).

Definition parse_params (v : vars) (args : list string) : vars :=
  fold_left parse_param args v.

End LegacyMain.

(** The elements of a [std::set<DeviceId>] are in strictly increasing order. *)
Fixpoint set_sorted (s : SupportedDevices) : bool :=
  match s with
  | [] => true
  | x :: rest =>
      match rest with
      | [] => true
      | y :: _ => DeviceId_lt x y && set_sorted rest
      end
  end.

(** Two identifiers that [operator <] does not tell apart. *)
Definition DeviceId_equiv (a b : DeviceId) : bool :=
  negb (DeviceId_lt a b) && negb (DeviceId_lt b a).

(** The requests of the probe: version, device information, applications. *)
Definition is_probe_request (e : event) : bool :=
  match e with
  | Ioctl _ HIDIOCGVERSION _ | Ioctl _ HIDIOCGDEVINFO _
  | Ioctl _ (HIDIOCAPPLICATION _) _ => true
  | _ => false
  end.

(** What a round issues between its [open] and its transaction: the probe,
    the initialisation of the report structures, and messages. *)
Definition quiet (e : event) : bool :=
  match e with
  | Stdout (MsgBrightness _ _) => false
  | Stdout _ | Stderr _ => true
  | Ioctl _ HIDIOCINITREPORT _ => true
  | _ => is_probe_request e
  end.


Definition is_ioctl (e : event) : bool :=
  match e with
  | Ioctl _ _ _ => true
  | _ => false
  end.

Definition is_output (e : event) : bool :=
  match e with
  | Stdout _ | Stderr _ => true
  | _ => false
  end.

(** What a round in detect mode may issue: the [open], the requests of the
    probe, and messages. *)
Definition detect_event (e : event) : bool :=
  is_open e || is_output e || is_probe_request e.

(** The flags of the [open] calls of a trace. *)
Definition open_modes (t : list event) : list open_flags :=
  flat_map (fun e => match e with
                     | Open _ flags _ => [flags]
                     | _ => []
                     end) t.

(** The paths of the [open] calls of a trace. *)
Definition opened_paths (t : list event) : list string :=
  flat_map (fun e => match e with
                     | Open path _ _ => [path]
                     | _ => []
                     end) t.

(** What the run does to the system: the trace without its messages. *)
Definition system_calls (t : list event) : list event :=
  filter (fun e => negb (is_output e)) t.

(** Two computations that differ in their messages only. *)
Definition same_calls {A} (m m' : proc A) : Prop :=
  system_calls (fst m) = system_calls (fst m') /\ snd m = snd m'.

(** The index of the first application that is a monitor application. *)
Fixpoint first_monitor (apps : list Z) : option nat :=
  match apps with
  | [] => None
  | a :: rest =>
      if monitor_application a then Some O
      else option_map S (first_monitor rest)
  end.

(** ** The classifier: theorems *)



Lemma parse_params_paths (args : list string) : forall v,
  forallb (fun a => negb (number a)) args = true ->
  parse_params v args =
    mkVars (mode v) (brightness v) (amount v) (percent v) (first_device v)
           (files v ++ args).
Proof.
  induction args as [|a args IH]; intros v Hall; simpl in *.
  - rewrite app_nil_r. now destruct v.
  - apply andb_prop in Hall as [Ha Hall].
    change (parse_params v (a :: args)) with (parse_params (parse_param v a) args).
    rewrite IH by assumption.
    unfold parse_param. apply negb_true_iff in Ha. rewrite Ha, andb_false_r.
    simpl. now rewrite <- app_assoc.
Qed.



(** The tokens the classifier is documented to reject or accept, apart from
    the lone signs. *)
Lemma number_documented_samples :
  map number [""; "%"; "12%5"; "12a"] = [false; false; false; false] /\
  map number ["0"; "+5960"; "-5960"; "20%"; "+10%"] = [true; true; true; true; true].
Proof. split; reflexivity. Qed.

(** C2. The classifier accepts a lone sign: [number] looks at the first
    character, steps over it and finds no character left to refuse, so "+"
    and "-" (and "+%") count as numbers. The argument loop then takes the
    token as a relative adjustment of [atoi] = 0 and not as a device path. *)
Theorem number_accepts_lone_sign :
  number "+" = true /\ number "-" = true /\ number "+%" = true /\
  token_digits "+" = "" /\
  let v := parse_params
             (initial_vars plain) ["/dev/usb/hiddev0"; "+"] in
  mode v = USAGE_MODE_SETREL /\ amount v = 0 /\ files v = ["/dev/usb/hiddev0"].
Proof. repeat split; reflexivity. Qed.

(** On the tokens that start with a digit and hold no percent sign the two
    revisions agree. *)
Lemma number_loop_agree (s : string) :
  (forall c, In c (list_ascii_of_string s) -> C.is_char c "%" = false) ->
  number_loop false s = Legacy.number_loop s.
Proof.
  induction s as [|c s IH]; intros Hp; simpl; auto.
  destruct (C.is_nul c); auto.
  rewrite (Hp c) by (simpl; auto). simpl.
  assert (E : (C.char c <? 48) || (57 <? C.char c)
              = negb ((48 <=? C.char c) && (C.char c <=? 57))).
  { destruct (C.char c <? 48) eqn:E1, (57 <? C.char c) eqn:E2,
             (48 <=? C.char c) eqn:E3, (C.char c <=? 57) eqn:E4; simpl; auto; lia. }
  rewrite E. destruct (negb _); auto. apply IH. intros; apply Hp; simpl; auto.
Qed.

Lemma number_revisions_agree_unsigned (s : string) :
  signed s = false ->
  (forall c, In c (list_ascii_of_string s) -> C.is_char c "%" = false) ->
  number s = Legacy.number s.
Proof.
  unfold signed, number, Legacy.number, number_ptr, Legacy.number_ptr.
  intros Hs Hp. destruct s as [|c s]; simpl in *; auto.
  apply orb_false_elim in Hs as [H1 H2]. rewrite H1, H2, !orb_false_r.
  destruct (C.is_digit c) eqn:Hd; simpl; auto.
  rewrite number_loop_agree by (intros; apply Hp; auto).
  unfold C.is_digit in Hd. rewrite Hd. simpl.
  destruct (C.is_nul c) eqn:Hn; auto.
  unfold C.is_nul in Hn. apply andb_prop in Hd as [Hd _]. lia.
Qed.

(** C9. The two revisions of [number] differ on every signed token: the
    older one runs its digit loop from the first character, sign included,
    and so refuses "+5960", which the newer one accepts; neither token holds
    a percent sign. *)
Theorem number_revisions_differ :
  Legacy.number "+5960" = false /\ number "+5960" = true /\
  Legacy.number "-1000" = false /\ number "-1000" = true.
Proof. repeat split; reflexivity. Qed.

(** ** The device round: what every path of it does *)

Lemma monitor_application_test (application : Z) :
  monitor_application application
  = (Z.land (Z.shiftr application 16) 0xFF =? 0x80).
Proof.
  destruct (Z.land (Z.shiftr application 16) 255 =? 128) eqn:E.
  - apply Z.eqb_eq in E. unfold monitor_application.
    apply forallb_forall. intros i Hi. apply in_seq in Hi.
    apply Bool.eqb_true_iff. rewrite <- E.
    rewrite Z.land_spec, Z.shiftr_spec by lia.
    replace (Z.of_nat i + 16) with (16 + Z.of_nat i) by lia.
    assert (Hi' : (i < 8)%nat) by lia.
    do 8 (destruct i as [|i]; [simpl; now rewrite andb_true_r|]). lia.
  - apply Z.eqb_neq in E. apply not_true_is_false. intros H. apply E.
    unfold monitor_application in H. rewrite forallb_forall in H.
    apply Z.bits_inj'. intros n Hn.
    rewrite Z.land_spec, Z.shiftr_spec by lia.
    destruct (Z.ltb_spec n 8) as [Hlt|Hge].
    + specialize (H (Z.to_nat n)). rewrite Z2Nat.id in H by lia.
      assert (Hin : In (Z.to_nat n) (seq 0 8)) by (apply in_seq; lia).
      apply H in Hin. apply Bool.eqb_prop in Hin.
      replace (n + 16) with (16 + n) by lia. rewrite Hin.
      change 255 with (Z.ones 8). rewrite Z.ones_spec_low by lia.
      apply andb_true_r.
    + change 255 with (Z.ones 8). rewrite Z.ones_spec_high by lia.
      rewrite andb_false_r. symmetry.
      change 128 with (2 ^ 7). apply Z.pow2_bits_false. lia.
Qed.

Lemma bind_emit {B} (e : event) (f : unit -> proc B) :
  bind (emit e) f = (e :: fst (f tt), snd (f tt)).
Proof. reflexivity. Qed.

Lemma bind_ioctl {B} (fd : Z) (req : request) (rc : Z) (f : Z -> proc B) :
  bind (ioctl fd req rc) f = (Ioctl fd req rc :: fst (f rc), snd (f rc)).
Proof. reflexivity. Qed.

Lemma bind_ret {A B} (a : A) (f : A -> proc B) : bind (ret a) f = f a.
Proof. unfold bind, ret. simpl. now destruct (f a). Qed.

Lemma bind_normal {A B} (t : list event) (a : A) (f : A -> proc B) :
  bind (t, Normal a) f = (t ++ fst (f a), snd (f a)).
Proof. reflexivity. Qed.

Lemma bind_flow {A B} (m : proc A) (f : A -> proc B) :
  bind m f = match snd m with
             | Normal a => (fst m ++ fst (f a), snd (f a))
             | Continue => (fst m, Continue)
             | Stop out => (fst m, Stop out)
             end.
Proof. reflexivity. Qed.

Lemma is_usb_monitor_loop_spec (d : hiddev) (fd : Z) : forall todo appl_num,
  snd (is_usb_monitor_loop d fd appl_num todo)
    = Normal (existsb monitor_application (map (hd_application d) (seq appl_num todo)))
  /\ forallb (is_probe fd) (fst (is_usb_monitor_loop d fd appl_num todo)) = true.
Proof.
  induction todo as [|todo IH]; intros appl_num;
    cbn [is_usb_monitor_loop existsb map seq].
  - split; reflexivity.
  - rewrite monitor_application_test, bind_ioctl.
    destruct (Z.land (Z.shiftr (hd_application d appl_num) 16) 255 =? 128);
      cbn [fst snd orb forallb is_probe]; rewrite Z.eqb_refl.
    + split; reflexivity.
    + destruct (IH (S appl_num)) as [-> ->]. split; reflexivity.
Qed.

Lemma is_usb_monitor_spec (d : hiddev) (fd : Z) :
  exists t, is_usb_monitor d fd
            = (t, Normal (existsb monitor_application (applications d)))
            /\ forallb (is_probe fd) t = true.
Proof.
  destruct (is_usb_monitor_loop_spec d fd (hd_num_applications d) 0%nat) as [H1 H2].
  exists (fst (is_usb_monitor d fd)). split; auto.
  unfold is_usb_monitor, applications. rewrite <- H1. now destruct (is_usb_monitor_loop _ _ _ _).
Qed.

Lemma verdict_app (o : options) (t1 t2 : list event) :
  verdict o (t1 ++ t2) = verdict o t1 ++ verdict o t2.
Proof. apply flat_map_app. Qed.

Lemma probe_verdict (o : options) (fd : Z) (t : list event) :
  forallb (is_probe fd) t = true -> verdict o t = [].
Proof.
  induction t as [|e t IH]; simpl; auto. intros H.
  apply andb_prop in H as [He Ht]. rewrite (IH Ht).
  destruct e as [| fd' [] rc | | |]; simpl in He; try discriminate. reflexivity.
Qed.

Section Aligned.

Variable o : options.

Lemma aligned_ret {A} (a : A) : aligned o (ret a).
Proof. reflexivity. Qed.

Lemma aligned_continue {A} : aligned o (@continue A).
Proof. reflexivity. Qed.

Lemma aligned_null {A} : aligned o (@null_dereference A).
Proof. reflexivity. Qed.

Lemma aligned_bind {A B} (m : proc A) (f : A -> proc B) :
  aligned o m -> (forall a, aligned o (f a)) -> aligned o (bind m f).
Proof.
  unfold aligned, bind. intros Hm Hf. destruct (snd m) as [a| |out]; simpl; auto.
  rewrite verdict_app, Hm. apply Hf.
Qed.

Lemma aligned_emit (e : event) : fatal o e = None -> aligned o (emit e).
Proof. unfold aligned, emit, verdict. simpl. now intros ->. Qed.

Lemma aligned_when (b : bool) (m : proc unit) : aligned o m -> aligned o (when b m).
Proof. destruct b; simpl; auto. intros _. apply aligned_ret. Qed.

Lemma aligned_if {A} (b : bool) (m1 m2 : proc A) :
  aligned o m1 -> aligned o m2 -> aligned o (if b then m1 else m2).
Proof. now destruct b. Qed.

Lemma aligned_ioctl (fd : Z) (req : request) (rc : Z) :
  fatal o (Ioctl fd req rc) = None -> aligned o (ioctl fd req rc).
Proof.
  intros H. unfold ioctl. apply aligned_bind; [now apply aligned_emit|].
  intros; apply aligned_ret.
Qed.

(** [if (ioctl (fd, req, ...) < 0) { message; exit (status); }] then the rest. *)
Lemma aligned_checked {A} (fd : Z) (req : request) (rc : Z) (msg : message)
    (status : Z) (rest : proc A) :
  fatal o (Ioctl fd req rc) = (if rc <? 0 then Some status else None) ->
  fatal o (Stderr msg) = None ->
  aligned o rest ->
  aligned o (rc' <- ioctl fd req rc;;
             when (rc' <? 0) (emit (Stderr msg);; exit status);; rest).
Proof.
  intros Hf Hmsg Hrest. unfold aligned, bind, ioctl, when, emit, exit, ret in *.
  simpl. destruct (rc <? 0); simpl; unfold verdict in *; simpl; rewrite Hf.
  - simpl. now rewrite Hmsg.
  - simpl. apply Hrest.
Qed.

Lemma aligned_is_usb_monitor (d : hiddev) (fd : Z) : aligned o (is_usb_monitor d fd).
Proof.
  destruct (is_usb_monitor_spec d fd) as (t & E & Ht). rewrite E.
  unfold aligned. simpl. eapply probe_verdict, Ht.
Qed.

Lemma aligned_set_brightness (d : hiddev) (fd value : Z) :
  aligned o (set_brightness d fd value).
Proof.
  unfold set_brightness. apply aligned_checked; try reflexivity.
  replace (rc <- ioctl fd HIDIOCSREPORT (hd_sreport d);;
           when (rc <? 0) (emit (Stderr (MsgPerror "Cannot read brightness"));; exit 3))
    with (rc <- ioctl fd HIDIOCSREPORT (hd_sreport d);;
          when (rc <? 0) (emit (Stderr (MsgPerror "Cannot read brightness"));; exit 3);;
          ret tt).
  - apply aligned_checked; try reflexivity.
  - unfold bind, ioctl, when, emit, exit, ret. simpl.
    destruct (hd_sreport d <? 0); reflexivity.
Qed.

Lemma aligned_get_brightness (d : hiddev) (fd : Z) (n : nat) :
  aligned o (get_brightness d fd n).
Proof.
  unfold get_brightness. apply aligned_checked; try reflexivity.
  apply aligned_checked; try reflexivity.
Qed.

Lemma aligned_scale_percent (sel : option DeviceId) (v : vars) :
  aligned o (scale_percent sel v).
Proof.
  unfold scale_percent. destruct (percent v), sel; try reflexivity.
  destruct (amount v =? 0); reflexivity.
Qed.

Lemma aligned_clamp_relative (sel : option DeviceId) (b : Z) :
  aligned o (clamp_relative sel b).
Proof. destruct sel; reflexivity. Qed.

Lemma aligned_transaction (sel : option DeviceId) (d : hiddev) (fd : Z)
    (path : string) (v : vars) :
  aligned o (transaction o sel d fd path v).
Proof.
  unfold transaction.
  apply aligned_bind; [apply aligned_scale_percent|intros v1].
  apply aligned_bind; [|intros v2; apply aligned_bind;
                         [now apply aligned_emit|intros _; apply aligned_ret]].
  apply aligned_if.
  { apply aligned_bind; [apply aligned_set_brightness|intros _; apply aligned_ret]. }
  apply aligned_bind; [apply aligned_get_brightness|intros value].
  apply aligned_bind.
  { apply aligned_if; [|apply aligned_ret].
    apply aligned_bind; [apply aligned_clamp_relative|intros b].
    apply aligned_bind; [apply aligned_set_brightness|intros _].
    apply aligned_bind; [apply aligned_get_brightness|intros value'].
    apply aligned_ret. }
  intros r. apply aligned_bind; [now apply aligned_emit|intros _; apply aligned_ret].
Qed.

Lemma aligned_process_device db k m n v path :
  aligned o (process_device db o k m n v path).
Proof.
  unfold process_device.
  apply aligned_bind; [now apply aligned_emit|intros _].
  apply aligned_if.
  { apply aligned_bind; [now apply aligned_emit|intros _; apply aligned_continue]. }
  apply aligned_bind; [now apply aligned_ioctl|intros _].
  apply aligned_bind; [apply aligned_when; now apply aligned_emit|intros _].
  apply aligned_bind; [now apply aligned_ioctl|intros _].
  apply aligned_if.
  { apply aligned_bind; [apply aligned_is_usb_monitor|intros monitor].
    apply aligned_bind; [apply aligned_when; now apply aligned_emit|intros _].
    apply aligned_continue. }
  apply aligned_bind.
  { destruct (is_supported db _); simpl; [apply aligned_ret|].
    unfold aligned, bind, when, emit, exit, ret, verdict, fatal. simpl.
    destruct (force o); reflexivity. }
  intros _. apply aligned_bind; [apply aligned_is_usb_monitor|intros monitor].
  apply aligned_if.
  { apply aligned_bind; [now apply aligned_emit|intros _; apply aligned_continue]. }
  apply aligned_checked; try reflexivity.
  apply aligned_transaction.
Qed.

End Aligned.

(** ** The monitor-control gate *)

Lemma probe_not_write (fd : Z) (t : list event) :
  forallb (is_probe fd) t = true -> existsb is_write t = false.
Proof.
  induction t as [|e t IH]; simpl; auto. intros H.
  apply andb_prop in H as [He Ht]. rewrite (IH Ht).
  destruct e as [| fd' [] rc | | |]; simpl in He; try discriminate. reflexivity.
Qed.

Ltac step :=
  repeat (rewrite ?bind_emit, ?bind_ioctl, ?bind_ret, ?bind_normal;
          cbn [fst snd when negb non_null app continue exit ret null_dereference]).

Lemma existsb_cons {A} (f : A -> bool) (a : A) (l : list A) :
  existsb f (a :: l) = f a || existsb f l.
Proof. reflexivity. Qed.

Lemma round_without_monitor_application (db : database) (o : options) (k : kernel)
    (m : open_flags) (n : nat) (v : vars) (path : string) :
  existsb monitor_application (applications (snd (k n path m))) = false ->
  let r := process_device db o k m n v path in
  existsb is_write (fst r) = false /\
  (snd r = Continue \/
   snd r = Stop (Exited 2) /\ force o = false /\ is_supported db (snd (k n path m)) = None).
Proof.
  intros Hmon r. subst r. unfold process_device.
  destruct (k n path m) as [fd d]. cbn [fst snd] in *.
  destruct (is_usb_monitor_spec d fd) as (tp & Ep & Hp). rewrite Hmon in Ep.
  apply probe_not_write in Hp.
  step. destruct (fd <? 0); step; [split; auto|].
  destruct (negb (silent o) && first_device v); step;
    (destruct (usage_mode_eqb (mode v) USAGE_MODE_DETECT);
     [ rewrite Ep; step; rewrite !existsb_cons, existsb_app, Hp; split; auto
     | destruct (is_supported db d) eqn:Hs; step;
       [ rewrite Ep; step; rewrite !existsb_cons, existsb_app, Hp; split; auto
       | destruct (force o); step;
         [ rewrite Ep; step; rewrite !existsb_cons, existsb_app, Hp; split; auto
         | split; auto ] ] ]).
Qed.

(** C7. A device that enumerates no application whose bits 16 to 23 are 0x80
    is never written to: whatever the mode, the options (the force flag
    included) and the database, its round issues no [HIDIOCSUSAGE] and no
    [HIDIOCSREPORT], and it ends at the gate by [continue], or before it by
    [exit (2)] when the device is unsupported and not forced. *)
Theorem not_a_monitor_is_never_written (db : database) (o : options) (k : kernel)
    (m : open_flags) (n : nat) (v : vars) (path : string) :
  existsb monitor_application (applications (snd (k n path m))) = false ->
  let r := process_device db o k m n v path in
  existsb is_write (fst r) = false /\
  (snd r = Continue \/
   snd r = Stop (Exited 2) /\ force o = false /\ is_supported db (snd (k n path m)) = None).
Proof. apply round_without_monitor_application. Qed.

Lemma not_a_monitor_is_never_written_witness :
  let r := process_device init_device_database forced
             (single display_without_monitor_application) O_RDWR 0
             (parse_params (initial_vars forced) ["/dev/usb/hiddev0"; "20000"])
             "/dev/usb/hiddev0" in
  existsb is_write (fst r) = false /\
  (snd r = Continue \/
   snd r = Stop (Exited 2) /\ force forced = false /\
   is_supported init_device_database display_without_monitor_application = None).
Proof.
  exact (not_a_monitor_is_never_written init_device_database forced
           (single display_without_monitor_application) O_RDWR 0
           (parse_params (initial_vars forced) ["/dev/usb/hiddev0"; "20000"])
           "/dev/usb/hiddev0" eq_refl).
Defined.

(** ** Exit statuses *)

Lemma device_loop_verdict (db : database) (o : options) (k : kernel) (m : open_flags)
    (paths : list string) : forall n v status,
  In status (verdict o (fst (device_loop db o k m n v paths))) ->
  snd (device_loop db o k m n v paths) = Exited status.
Proof.
  induction paths as [|path rest IH]; intros n v status; cbn [device_loop].
  - intros [].
  - pose proof (aligned_process_device o db k m n v path) as Ha.
    unfold aligned in Ha.
    destruct (snd (process_device db o k m n v path)) as [v'| |[s|]];
      cbn [fst snd]; rewrite ?verdict_app, ?Ha; cbn [app]; try apply IH.
    + intros [<-|[]]. reflexivity.
    + intros [].
Qed.

Lemma failed_verdict (o : options) (kind : request -> bool) (status : Z) (t : list event) :
  (forall e, failed kind e = true -> fatal o e = Some status) ->
  existsb (failed kind) t = true -> In status (verdict o t).
Proof.
  intros Hk H. apply existsb_exists in H as (e & Hin & He).
  unfold verdict. apply in_flat_map. exists e. split; auto.
  rewrite (Hk e He). now left.
Qed.

Lemma fatal_init (o : options) (e : event) :
  failed init_request e = true -> fatal o e = Some 1.
Proof. unfold fatal. now intros ->. Qed.

Lemma fatal_usage (o : options) (e : event) :
  failed usage_request e = true -> fatal o e = Some 2.
Proof.
  unfold fatal. intros H. rewrite H.
  destruct e as [| fd [] rc | | |]; simpl in *; try discriminate; reflexivity.
Qed.

Lemma fatal_report (o : options) (e : event) :
  failed report_request e = true -> fatal o e = Some 3.
Proof.
  unfold fatal. intros H. rewrite H.
  destruct e as [| fd [] rc | | |]; simpl in *; try discriminate; reflexivity.
Qed.

Lemma fatal_unsupported (o : options) (e : event) :
  force o = false -> reports_unsupported e = true -> fatal o e = Some 2.
Proof.
  unfold fatal. intros Hf H. rewrite H, Hf.
  destruct e as [| | | |[]]; simpl in *; try discriminate; reflexivity.
Qed.

Lemma run_verdict (db : database) (o : options) (positional : list string)
    (k : kernel) (status : Z) :
  In status (verdict o (fst (run db o positional k))) ->
  snd (run db o positional k) = Exited status.
Proof.
  unfold run. destruct (files _) as [|p ps] eqn:Hf.
  - cbn. intros [].
  - cbn [fst snd]. rewrite verdict_app.
    replace (verdict o (if negb (silent o) then [Stdout MsgNotice] else []))
      with (@nil Z) by (destruct (silent o); reflexivity).
    apply device_loop_verdict.
Qed.

(** C6. The exit status: 1 when no device path is given or the
    initialisation of the report structures fails; 2 when a device is
    reported unsupported and the force flag is not set, or a get or set
    usage request fails; 3 when a get or set report request fails. *)
Theorem exit_status (db : database) (o : options) (positional : list string) (k : kernel) :
  let r := run db o positional k in
  (files (parse_params (initial_vars o) positional) = [] -> snd r = Exited 1) /\
  (existsb (failed init_request) (fst r) = true -> snd r = Exited 1) /\
  (force o = false -> existsb reports_unsupported (fst r) = true -> snd r = Exited 2) /\
  (existsb (failed usage_request) (fst r) = true -> snd r = Exited 2) /\
  (existsb (failed report_request) (fst r) = true -> snd r = Exited 3).
Proof.
  intros r. subst r. repeat split.
  - intros H. unfold run. now rewrite H.
  - intros H. apply run_verdict, (failed_verdict o init_request); auto.
    apply fatal_init.
  - intros Hf H. apply run_verdict. apply existsb_exists in H as (e & Hin & He).
    unfold verdict. apply in_flat_map. exists e. split; auto.
    rewrite (fatal_unsupported o e Hf He). now left.
  - intros H. apply run_verdict, (failed_verdict o usage_request); auto.
    apply fatal_usage.
  - intros H. apply run_verdict, (failed_verdict o report_request); auto.
    apply fatal_report.
Qed.

Lemma exit_status_witness :
  snd (main plain ["20000"] (single (studio_display 30000))) = Exited 1 /\
  snd (main plain ["/dev/usb/hiddev0"] (single (faulty_display (-1) 0 0 0 0)))
    = Exited 1 /\
  snd (main plain ["/dev/usb/hiddev0"; "20000"] (single keyboard)) = Exited 2 /\
  snd (main plain ["/dev/usb/hiddev0"; "20000"] (single (faulty_display 0 (-1) 0 0 0)))
    = Exited 2 /\
  snd (main plain ["/dev/usb/hiddev0"] (single (faulty_display 0 0 0 (-1) 0)))
    = Exited 2 /\
  snd (main plain ["/dev/usb/hiddev0"; "20000"] (single (faulty_display 0 0 (-1) 0 0)))
    = Exited 3 /\
  snd (main plain ["/dev/usb/hiddev0"] (single (faulty_display 0 0 0 0 (-1))))
    = Exited 3.
Proof.
  pose (E := exit_status init_device_database plain).
  refine (conj _ (conj _ (conj _ (conj _ (conj _ (conj _ _)))))).
  - exact (proj1 (E ["20000"] (single (studio_display 30000))) eq_refl).
  - exact (proj1 (proj2 (E ["/dev/usb/hiddev0"]
                    (single (faulty_display (-1) 0 0 0 0)))) eq_refl).
  - exact (proj1 (proj2 (proj2 (E ["/dev/usb/hiddev0"; "20000"] (single keyboard))))
             eq_refl eq_refl).
  - exact (proj1 (proj2 (proj2 (proj2 (E ["/dev/usb/hiddev0"; "20000"]
                    (single (faulty_display 0 (-1) 0 0 0)))))) eq_refl).
  - exact (proj1 (proj2 (proj2 (proj2 (E ["/dev/usb/hiddev0"]
                    (single (faulty_display 0 0 0 (-1) 0)))))) eq_refl).
  - exact (proj2 (proj2 (proj2 (proj2 (E ["/dev/usb/hiddev0"; "20000"]
                    (single (faulty_display 0 0 (-1) 0 0)))))) eq_refl).
  - exact (proj2 (proj2 (proj2 (proj2 (E ["/dev/usb/hiddev0"]
                    (single (faulty_display 0 0 0 0 (-1))))))) eq_refl).
Defined.

(** ** Which failures are local to a device *)

Lemma round_open_failure (db : database) (o : options) (k : kernel)
    (m : open_flags) (n : nat) (v : vars) (path : string) :
  fst (k n path m) < 0 ->
  process_device db o k m n v path
  = ([Open path m (fst (k n path m)); Stderr (MsgPerror path)], Continue).
Proof.
  intros H. unfold process_device. apply Z.ltb_lt in H. rewrite H. now step.
Qed.

Lemma round_stops (db : database) (o : options) (k : kernel) (m : open_flags)
    (n : nat) (v : vars) (path : string) (rest : list string) (status : Z) :
  In status (verdict o (fst (process_device db o k m n v path))) ->
  device_loop db o k m n v (path :: rest)
  = (fst (process_device db o k m n v path), Exited status).
Proof.
  intros H. cbn [device_loop].
  pose proof (aligned_process_device o db k m n v path) as Ha. unfold aligned in Ha.
  destruct (snd (process_device db o k m n v path)) as [v'| |[s|]];
    rewrite Ha in H; try contradiction.
  destruct H as [<-|[]]. reflexivity.
Qed.

(** C3, the counterexample. [set usage] fails on the first of two displays:
    the process exits with status 2 and the second path is never opened. *)
Lemma usage_failure_ends_the_run :
  main plain ["/dev/usb/hiddev0"; "/dev/usb/hiddev1"; "20000"]
       (devices [faulty_display 0 (-1) 0 0 0; studio_display 30000])
  = ([Open "/dev/usb/hiddev0" O_RDWR 3;
      Ioctl 3 HIDIOCGVERSION 0; Ioctl 3 HIDIOCGDEVINFO 0;
      Ioctl 3 (HIDIOCAPPLICATION 0) 0x000c0001;
      Ioctl 3 (HIDIOCAPPLICATION 1) 0x00800001;
      Ioctl 3 HIDIOCINITREPORT 0;
      Ioctl 3 (HIDIOCSUSAGE 20000) (-1);
      Stderr (MsgPerror "Cannot set brightness")],
     Exited 2)
  /\ main plain ["/dev/usb/hiddev0"; "/dev/usb/hiddev1"]
       (devices [faulty_display 0 0 0 0 (-1); studio_display 30000])
  = ([Open "/dev/usb/hiddev0" O_RDONLY 3;
      Ioctl 3 HIDIOCGVERSION 0; Ioctl 3 HIDIOCGDEVINFO 0;
      Ioctl 3 (HIDIOCAPPLICATION 0) 0x000c0001;
      Ioctl 3 (HIDIOCAPPLICATION 1) 0x00800001;
      Ioctl 3 HIDIOCINITREPORT 0;
      Ioctl 3 HIDIOCGUSAGE 0; Ioctl 3 HIDIOCGREPORT (-1);
      Stderr (MsgPerror "Cannot read brightness")],
     Exited 3).
Proof. split; reflexivity. Qed.

(** C3, as the program has it. A path that cannot be opened and a device
    that is not a USB monitor (supported, or forced) are local: the round
    ends by [continue] and the loop goes on with the remaining paths. A
    failed get or set usage request, a failed get or set report request and
    a failed initialisation of the report structures end the whole process,
    with status 2, 3 and 1: the run stops with the events of this round and
    no later path is processed. *)
Theorem failure_scope (db : database) (o : options) (k : kernel) (m : open_flags)
    (n : nat) (v : vars) (path : string) (rest : list string) :
  let r := process_device db o k m n v path in
  let goes_on :=
    device_loop db o k m n v (path :: rest)
    = (fst r ++ fst (device_loop db o k m (S n) v rest),
       snd (device_loop db o k m (S n) v rest)) in
  (fst (k n path m) < 0 -> goes_on) /\
  (existsb monitor_application (applications (snd (k n path m))) = false ->
   force o = true \/ is_supported db (snd (k n path m)) <> None -> goes_on) /\
  (existsb (failed usage_request) (fst r) = true ->
   device_loop db o k m n v (path :: rest) = (fst r, Exited 2)) /\
  (existsb (failed report_request) (fst r) = true ->
   device_loop db o k m n v (path :: rest) = (fst r, Exited 3)) /\
  (existsb (failed init_request) (fst r) = true ->
   device_loop db o k m n v (path :: rest) = (fst r, Exited 1)).
Proof.
  intros r goes_on. subst r goes_on. repeat apply conj.
  - intros H. cbn [device_loop]. now rewrite (round_open_failure db o k m n v path H).
  - intros Hmon Hok. cbn [device_loop].
    destruct (round_without_monitor_application db o k m n v path Hmon)
      as [_ [->|(_ & Hf & Hs)]]; [reflexivity|].
    destruct Hok as [Hok|Hok]; congruence.
  - intros H. apply round_stops, (failed_verdict o usage_request); auto.
    apply fatal_usage.
  - intros H. apply round_stops, (failed_verdict o report_request); auto.
    apply fatal_report.
  - intros H. apply round_stops, (failed_verdict o init_request); auto.
    apply fatal_init.
Qed.

Lemma failure_scope_witness :
  device_loop init_device_database plain
    (devices [faulty_display 0 (-1) 0 0 0; studio_display 30000]) O_RDWR 0
    (parse_params (initial_vars plain) ["20000"])
    ["/dev/usb/hiddev0"; "/dev/usb/hiddev1"]
  = (fst (process_device init_device_database plain
            (devices [faulty_display 0 (-1) 0 0 0; studio_display 30000]) O_RDWR 0
            (parse_params (initial_vars plain) ["20000"]) "/dev/usb/hiddev0"),
     Exited 2)
  /\ device_loop init_device_database plain
       (devices [display_without_monitor_application; studio_display 30000]) O_RDWR 0
       (parse_params (initial_vars plain) ["20000"])
       ["/dev/usb/hiddev0"; "/dev/usb/hiddev1"]
     = (fst (process_device init_device_database plain
               (devices [display_without_monitor_application; studio_display 30000])
               O_RDWR 0 (parse_params (initial_vars plain) ["20000"]) "/dev/usb/hiddev0")
        ++ fst (device_loop init_device_database plain
                  (devices [display_without_monitor_application; studio_display 30000])
                  O_RDWR 1 (parse_params (initial_vars plain) ["20000"])
                  ["/dev/usb/hiddev1"]),
        snd (device_loop init_device_database plain
               (devices [display_without_monitor_application; studio_display 30000])
               O_RDWR 1 (parse_params (initial_vars plain) ["20000"])
               ["/dev/usb/hiddev1"])).
Proof.
  split.
  - exact (proj1 (proj2 (proj2 (failure_scope init_device_database plain
             (devices [faulty_display 0 (-1) 0 0 0; studio_display 30000]) O_RDWR 0
             (parse_params (initial_vars plain) ["20000"])
             "/dev/usb/hiddev0" ["/dev/usb/hiddev1"]))) eq_refl).
  - refine (proj1 (proj2 (failure_scope init_device_database plain
             (devices [display_without_monitor_application; studio_display 30000])
             O_RDWR 0 (parse_params (initial_vars plain) ["20000"])
             "/dev/usb/hiddev0" ["/dev/usb/hiddev1"])) eq_refl (or_intror _)).
    discriminate.
Defined.

(** ** Arithmetic of [int] and of tokens *)

Lemma to_int_id (z : Z) : C.in_int z -> C.to_int z = z.
Proof.
  unfold C.in_int, C.INT_MIN, C.INT_MAX, C.to_int. intros H.
  rewrite Z.mod_small; lia.
Qed.


Lemma min_max_percent (x : Z) : C.min (C.max x 0) 100 = Z.max 0 (Z.min 100 x).
Proof.
  unfold C.min, C.max.
  destruct (Z.ltb_spec x 0); [destruct (Z.ltb_spec 100 0)|destruct (Z.ltb_spec 100 x)]; lia.
Qed.

Lemma digit_run_ge (s : string) : forall acc, 0 <= acc -> acc <= C.digit_run acc s.
Proof.
  induction s as [|c s IH]; intros acc Hacc; cbn [C.digit_run]; [lia|].
  destruct (C.is_digit c) eqn:Hd; [|lia].
  unfold C.is_digit in Hd. apply andb_prop in Hd as [H1 H2].
  apply Z.leb_le in H1, H2.
  specialize (IH (10 * acc + (C.char c - 48))). lia.
Qed.

Lemma token_magnitude_nonneg (tok : string) : 0 <= token_magnitude tok.
Proof. apply (digit_run_ge _ 0). lia. Qed.

Lemma saturate_int (z : Z) : C.in_int z -> C.saturate_long z = z.
Proof.
  unfold C.in_int, C.INT_MIN, C.INT_MAX, C.saturate_long, C.LONG_MIN, C.LONG_MAX. lia.
Qed.

(** What [atoi] makes of a token the classifier accepts. *)
Lemma atoi_token (tok : string) :
  number tok = true ->
  token_magnitude tok <= C.INT_MAX ->
  C.atoi tok = token_sign tok * token_magnitude tok.
Proof.
  intros Hn Hm. pose proof (token_magnitude_nonneg tok) as H0.
  unfold token_magnitude, token_digits, token_sign, signed in *.
  unfold number, number_ptr in Hn.
  destruct tok as [|c rest]; [discriminate|]. cbn [C.deref C.next] in *.
  destruct (C.is_digit c || C.is_char c "+" || C.is_char c "-") eqn:Hc;
    [clear Hn|discriminate].
  assert (Hsp : C.isspace c = false).
  { unfold C.isspace, C.is_digit, C.is_char in *.
    change (C.char "+") with 43 in Hc. change (C.char "-") with 45 in Hc.
    destruct (C.char c =? 32) eqn:E1; destruct (9 <=? C.char c) eqn:E2;
      destruct (C.char c <=? 13) eqn:E3; try reflexivity; exfalso;
      destruct (48 <=? C.char c) eqn:E4; destruct (C.char c <=? 57) eqn:E5;
      destruct (C.char c =? 43) eqn:E6; destruct (C.char c =? 45) eqn:E7;
      try discriminate; lia. }
  unfold C.atoi, C.strtol. cbn [C.skip_space]. rewrite Hsp. cbn [C.deref C.next].
  assert (Hpm : C.is_char c "+" = true -> C.is_char c "-" = false).
  { unfold C.is_char. change (C.char "+") with 43. change (C.char "-") with 45.
    intros H. apply Z.eqb_eq in H. apply Z.eqb_neq. lia. }
  unfold C.INT_MAX in Hm.
  destruct (C.is_char c "-") eqn:Hminus.
  - rewrite orb_true_r in *.
    rewrite saturate_int, to_int_id; unfold C.in_int, C.INT_MIN, C.INT_MAX; lia.
  - rewrite orb_false_r in *. destruct (C.is_char c "+") eqn:Hplus.
    + rewrite saturate_int, to_int_id; unfold C.in_int, C.INT_MIN, C.INT_MAX; lia.
    + rewrite saturate_int, to_int_id; unfold C.in_int, C.INT_MIN, C.INT_MAX; lia.
Qed.

(** ** The values written *)

Lemma set_values_app (t1 t2 : list event) :
  set_values (t1 ++ t2) = set_values t1 ++ set_values t2.
Proof. apply flat_map_app. Qed.

Lemma probe_set_values (fd : Z) (t : list event) :
  forallb (is_probe fd) t = true -> set_values t = [].
Proof.
  induction t as [|e t IH]; [reflexivity|]. cbn [forallb]. intros H.
  apply andb_prop in H as [He Ht].
  change (e :: t) with ([e] ++ t). rewrite set_values_app, (IH Ht), app_nil_r.
  destruct e as [| fd' [] rc | | |]; simpl in He; try discriminate. reflexivity.
Qed.

Lemma set_values_cons (e : event) (t : list event) :
  set_values (e :: t)
  = match e with
    | Ioctl _ (HIDIOCSUSAGE value) _ => [value]
    | _ => []
    end ++ set_values t.
Proof. reflexivity. Qed.

Lemma set_values_nil : set_values [] = [].
Proof. reflexivity. Qed.

Ltac written :=
  repeat (rewrite ?set_values_cons, ?set_values_app, ?set_values_nil; cbn [app]).

(** A ready device reaches the transaction, and nothing is written
    before it. *)
Lemma round_transaction (db : database) (o : options) (k : kernel) (m : open_flags)
    (n : nat) (v : vars) (path : string) :
  mode v <> USAGE_MODE_DETECT ->
  ready db o (fst (k n path m)) (snd (k n path m)) ->
  let T := transaction o (is_supported db (snd (k n path m)))
             (snd (k n path m)) (fst (k n path m)) path v in
  set_values (fst (process_device db o k m n v path)) = set_values (fst T) /\
  snd (process_device db o k m n v path) = snd T.
Proof.
  intros Hm (Hfd & Hsup & Hmon & Hinit) T. subst T. unfold process_device.
  destruct (k n path m) as [fd d]. cbn [fst snd] in *.
  destruct (is_usb_monitor_spec d fd) as (tp & Ep & Hp). rewrite Hmon in Ep.
  apply probe_set_values in Hp.
  replace (fd <? 0) with false by (symmetry; apply Z.ltb_ge; lia).
  replace (usage_mode_eqb (mode v) USAGE_MODE_DETECT) with false
    by (destruct (mode v); simpl; congruence).
  assert (Hi : (hd_initreport d <? 0) = false) by (apply Z.ltb_ge; lia).
  destruct (negb (silent o) && first_device v); step;
    (destruct (is_supported db d) eqn:Hs; step;
     [ rewrite Ep; step; rewrite Hi; step; split; [|reflexivity];
       written; now rewrite Hp
     | destruct Hsup as [Hf|Hf]; [|congruence]; rewrite Hf; step;
       rewrite Ep; step; rewrite Hi; step; split; [|reflexivity];
       written; now rewrite Hp ]).
Qed.

Lemma written_bind {A B} (m : proc A) (f : A -> proc B) :
  set_values (fst (bind m f))
  = set_values (fst m) ++ match snd m with
                          | Normal a => set_values (fst (f a))
                          | _ => []
                          end.
Proof.
  unfold bind. destruct (snd m); cbn [fst]; rewrite ?set_values_app, ?app_nil_r; reflexivity.
Qed.

Lemma set_brightness_written (d : hiddev) (fd value : Z) :
  set_values (fst (set_brightness d fd value)) = [value].
Proof.
  unfold set_brightness. step.
  destruct (hd_susage d value <? 0); step; [reflexivity|].
  destruct (hd_sreport d <? 0); step; reflexivity.
Qed.

Lemma get_brightness_written (d : hiddev) (fd : Z) (n : nat) :
  set_values (fst (get_brightness d fd n)) = [].
Proof.
  unfold get_brightness. step.
  destruct (fst (hd_gusage d n) <? 0); step; [reflexivity|].
  destruct (hd_greport d n <? 0); step; reflexivity.
Qed.

Lemma get_brightness_ok (d : hiddev) (fd : Z) (n : nat) :
  0 <= fst (hd_gusage d n) -> 0 <= hd_greport d n ->
  snd (get_brightness d fd n) = Normal (snd (hd_gusage d n)).
Proof.
  intros H1 H2. unfold get_brightness. step.
  replace (fst (hd_gusage d n) <? 0) with false by (symmetry; apply Z.ltb_ge; lia).
  step. replace (hd_greport d n <? 0) with false by (symmetry; apply Z.ltb_ge; lia).
  now step.
Qed.

Ltac flows :=
  repeat (rewrite ?written_bind, ?set_brightness_written, ?get_brightness_written,
            ?bind_ret;
          cbn [fst snd app ret emit set_values flat_map];
          try match goal with
              | |- context [match ?x with Normal _ => _ | Continue => _ | Stop _ => _ end] =>
                  destruct x
              end).

(** The absolute mode hands [brightness], as the percent block left it, to
    [HIDIOCSUSAGE]. *)
Lemma transaction_set (o : options) (sel : option DeviceId) (d : hiddev) (fd : Z)
    (path : string) (v v1 : vars) :
  scale_percent sel v = ret v1 ->
  mode v1 = USAGE_MODE_SET ->
  set_values (fst (transaction o sel d fd path v)) = [brightness v1].
Proof.
  intros Hs Hm. unfold transaction. rewrite Hs, bind_ret, Hm.
  cbn [usage_mode_eqb]. flows; reflexivity.
Qed.


(** A run on one path and one token comes down to one round. *)
Lemma parse_path_token (o : options) (path tok : string) :
  detect o = false -> number path = false -> number tok = true ->
  parse_params (initial_vars o) [path; tok] = parsed path tok.
Proof.
  intros Hd Hp Ht. unfold parse_params, parsed, initial_vars. cbn [fold_left].
  rewrite Hd. unfold parse_param at 2. cbn [mode usage_mode_eqb negb andb].
  rewrite Hp. cbn [brightness amount percent first_device files app].
  unfold parse_param. cbn [mode usage_mode_eqb negb andb]. rewrite Ht.
  fold (signed tok). destruct (signed tok); reflexivity.
Qed.

Lemma run_single (db : database) (o : options) (k : kernel) (path tok : string) :
  detect o = false -> number path = false -> number tok = true ->
  set_values (fst (run db o [path; tok] k))
  = set_values (fst (process_device db o k O_RDWR 0 (parsed path tok) path)).
Proof.
  intros Hd Hp Ht. unfold run. rewrite (parse_path_token o path tok Hd Hp Ht).
  assert (Hf : files (parsed path tok) = [path])
    by (unfold parsed; destruct (signed tok); reflexivity).
  assert (Hm : usage_mode_eqb (mode (parsed path tok)) USAGE_MODE_SET
               || usage_mode_eqb (mode (parsed path tok)) USAGE_MODE_SETREL = true)
    by (unfold parsed; destruct (signed tok); reflexivity).
  rewrite Hf, Hm. cbn [device_loop fst snd].
  rewrite set_values_app.
  replace (set_values (if negb (silent o) then [Stdout MsgNotice] else []))
    with (@nil Z) by (destruct (silent o); reflexivity).
  destruct (snd (process_device db o k O_RDWR 0 (parsed path tok) path));
    cbn [fst snd app]; rewrite ?app_nil_r; reflexivity.
Qed.

Lemma unsigned_sign (tok : string) : signed tok = false -> token_sign tok = 1.
Proof.
  unfold signed, token_sign. intros H. apply orb_false_elim in H as [_ H].
  now rewrite H.
Qed.


(** ** The absolute mode over a list of paths *)

(** A round either ends before the transaction, and then writes nothing and
    does not fall through, or it is the transaction as far as writes and the
    way it ends go. *)
Lemma round_shape (db : database) (o : options) (k : kernel) (m : open_flags)
    (n : nat) (v : vars) (path : string) :
  let r := process_device db o k m n v path in
  let T := transaction o (is_supported db (snd (k n path m)))
             (snd (k n path m)) (fst (k n path m)) path v in
  (set_values (fst r) = [] /\ forall v', snd r <> Normal v') \/
  (set_values (fst r) = set_values (fst T) /\ snd r = snd T).
Proof.
  intros r T. subst r T. unfold process_device.
  destruct (k n path m) as [fd d]. cbn [fst snd].
  destruct (is_usb_monitor_spec d fd) as (tp & Ep & Hp).
  apply probe_set_values in Hp.
  set (T := transaction o (is_supported db d) d fd path v).
  step. destruct (fd <? 0); step; [left; split; [reflexivity|discriminate]|].
  destruct (negb (silent o) && first_device v); step;
    (destruct (usage_mode_eqb (mode v) USAGE_MODE_DETECT);
     [ rewrite Ep; step;
       destruct (existsb monitor_application (applications d)); step;
       left; (split; [written; now rewrite Hp|discriminate])
     | destruct (is_supported db d) eqn:Hs; step;
       [ rewrite Ep; step;
         destruct (existsb monitor_application (applications d)); step;
         [ destruct (hd_initreport d <? 0); step;
           [ left; (split; [written; now rewrite Hp|discriminate])
           | right; (split; [written; now rewrite Hp|reflexivity]) ]
         | left; (split; [written; now rewrite Hp|discriminate]) ]
       | destruct (force o); step;
         [ rewrite Ep; step;
           destruct (existsb monitor_application (applications d)); step;
           [ destruct (hd_initreport d <? 0); step;
             [ left; (split; [written; now rewrite Hp|discriminate])
             | right; (split; [written; now rewrite Hp|reflexivity]) ]
           | left; (split; [written; now rewrite Hp|discriminate]) ]
         | left; (split; [reflexivity|discriminate]) ] ] ]).
Qed.

(** In the absolute mode without a percentage the transaction writes
    [brightness] and leaves the locals of the argument loop as they are. *)
Lemma transaction_absolute (o : options) (sel : option DeviceId) (d : hiddev)
    (fd : Z) (path : string) (v : vars) :
  mode v = USAGE_MODE_SET -> percent v = false ->
  set_values (fst (transaction o sel d fd path v)) = [brightness v] /\
  forall v', snd (transaction o sel d fd path v) = Normal v' ->
             mode v' = USAGE_MODE_SET /\ percent v' = false /\
             brightness v' = brightness v.
Proof.
  intros Hm Hp.
  assert (Hs : scale_percent sel v = ret v) by (unfold scale_percent; now rewrite Hp).
  split; [now apply (transaction_set o sel d fd path v v)|].
  unfold transaction. rewrite Hs, bind_ret, Hm. cbn [usage_mode_eqb].
  set (body := set_brightness d fd (brightness v);; ret v).
  assert (Hbody : forall v1, snd body = Normal v1 -> v1 = v).
  { subst body. rewrite bind_flow. destruct (snd (set_brightness d fd (brightness v)));
      cbn [snd ret]; intros v1 H; now inversion H. }
  rewrite (bind_flow body). destruct (snd body) as [v1| |out]; cbn [snd];
    intros v' H; try discriminate.
  rewrite bind_emit in H. cbn [snd ret] in H. inversion H. cbn.
  rewrite (Hbody v1 eq_refl). auto.
Qed.

Lemma round_absolute (db : database) (o : options) (k : kernel) (m : open_flags)
    (n : nat) (v : vars) (path : string) :
  mode v = USAGE_MODE_SET -> percent v = false ->
  Forall (eq (brightness v)) (set_values (fst (process_device db o k m n v path))) /\
  forall v', snd (process_device db o k m n v path) = Normal v' ->
             mode v' = USAGE_MODE_SET /\ percent v' = false /\
             brightness v' = brightness v.
Proof.
  intros Hm Hp.
  destruct (transaction_absolute o (is_supported db (snd (k n path m)))
              (snd (k n path m)) (fst (k n path m)) path v Hm Hp) as [Hw Hf].
  destruct (round_shape db o k m n v path) as [[-> Hn]|[-> ->]].
  - split; [constructor|]. intros v' H. now destruct (Hn v').
  - rewrite Hw. split; [repeat constructor|exact Hf].
Qed.

Lemma device_loop_absolute (db : database) (o : options) (k : kernel) (m : open_flags)
    (paths : list string) : forall n v,
  mode v = USAGE_MODE_SET -> percent v = false ->
  Forall (eq (brightness v)) (set_values (fst (device_loop db o k m n v paths))).
Proof.
  induction paths as [|path rest IH]; intros n v Hm Hp; cbn [device_loop].
  - constructor.
  - destruct (round_absolute db o k m n v path Hm Hp) as [Hw Hf].
    destruct (snd (process_device db o k m n v path)) as [v'| |out]; cbn [fst snd];
      rewrite ?set_values_app; try assumption.
    + destruct (Hf v' eq_refl) as (Hm' & Hp' & Hb).
      apply Forall_app. split; [assumption|].
      rewrite <- Hb. now apply IH.
    + apply Forall_app. split; [assumption|now apply IH].
Qed.

(** ** The absolute mode on one path *)

(** C1, the counterexample. The Studio Display has the bounds [400, 60000];
    the token 999999 writes 999999 and the token 0 writes 0. *)
Lemma absolute_value_is_not_clamped :
  option_map (fun dev => (brightness_min dev, brightness_max dev))
    (is_supported init_device_database (studio_display 30000)) = Some (400, 60000)
  /\ set_values (fst (main plain ["/dev/usb/hiddev0"; "999999"]
                        (single (studio_display 30000)))) = [999999]
  /\ 60000 < 999999
  /\ set_values (fst (main plain ["/dev/usb/hiddev0"; "0"]
                        (single (studio_display 30000)))) = [0]
  /\ 0 < 400.
Proof. repeat split; reflexivity. Qed.

Lemma absolute_single_path (db : database) (o : options) (k : kernel)
    (path tok : string) :
  detect o = false -> number path = false ->
  number tok = true -> signed tok = false -> isPercent tok = false ->
  token_magnitude tok <= C.INT_MAX ->
  ready db o (fst (k 0%nat path O_RDWR)) (snd (k 0%nat path O_RDWR)) ->
  set_values (fst (run db o [path; tok] k)) = [token_magnitude tok].
Proof.
  intros Hd Hp Ht Hs Hpc Hm Hadm.
  rewrite (run_single db o k path tok Hd Hp Ht).
  unfold parsed. rewrite Hs, Hpc.
  match goal with |- context [process_device db o k O_RDWR 0%nat ?v path] => set (v0 := v) end.
  destruct (round_transaction db o k O_RDWR 0%nat v0 path) as [Hw _];
    [subst v0; cbn; congruence|assumption|].
  rewrite Hw, (transaction_set _ _ _ _ _ v0 v0) by reflexivity.
  subst v0. cbn [brightness].
  rewrite (atoi_token tok Ht Hm), (unsigned_sign tok Hs). f_equal. lia.
Qed.

Lemma absolute_every_path (db : database) (o : options) (k : kernel)
    (paths : list string) (tok : string) :
  detect o = false -> forallb (fun p => negb (number p)) paths = true ->
  number tok = true -> signed tok = false -> isPercent tok = false ->
  token_magnitude tok <= C.INT_MAX ->
  Forall (eq (token_magnitude tok)) (set_values (fst (run db o (paths ++ [tok]) k))).
Proof.
  intros Hd Hp Ht Hs Hpc Hm. unfold run.
  replace (parse_params (initial_vars o) (paths ++ [tok]))
    with (parse_param (parse_params (initial_vars o) paths) tok)
    by (unfold parse_params; now rewrite fold_left_app).
  rewrite (parse_params_paths paths _ Hp). unfold parse_param, initial_vars.
  rewrite Hd. cbn [mode usage_mode_eqb negb andb brightness amount percent
                   first_device files app].
  rewrite Ht. fold (signed tok). rewrite Hs, Hpc. cbn [files mode usage_mode_eqb orb].
  rewrite (atoi_token tok Ht Hm), (unsigned_sign tok Hs), Z.mul_1_l.
  destruct paths as [|p ps]; [constructor|].
  cbn [fst snd]. rewrite set_values_app. apply Forall_app. split.
  - destruct (silent o); constructor.
  - match goal with
    | |- context [device_loop db o k O_RDWR 0%nat ?v _] =>
        exact (device_loop_absolute db o k O_RDWR (p :: ps) 0%nat v eq_refl eq_refl)
    end.
Qed.

(** C1, as the program has it. With an absolute token without a percent
    sign, whose magnitude is an [int], every value the run hands to
    [HIDIOCSUSAGE], on whatever device and with whatever bounds, is the
    magnitude itself; and on a device that reaches the transaction it is
    handed over: the value is not clamped, and it lies in the bounds only
    when the magnitude does. *)
Theorem absolute_value_written_as_given (db : database) (o : options) (k : kernel)
    (paths : list string) (tok : string) :
  detect o = false -> forallb (fun p => negb (number p)) paths = true ->
  number tok = true -> signed tok = false -> isPercent tok = false ->
  token_magnitude tok <= C.INT_MAX ->
  Forall (eq (token_magnitude tok)) (set_values (fst (run db o (paths ++ [tok]) k))) /\
  (forall path,
     paths = [path] ->
     ready db o (fst (k 0%nat path O_RDWR)) (snd (k 0%nat path O_RDWR)) ->
     set_values (fst (run db o [path; tok] k)) = [token_magnitude tok]).
Proof.
  intros Hd Hp Ht Hs Hpc Hm. split.
  - now apply absolute_every_path.
  - intros path -> Hready. apply absolute_single_path; auto.
    cbn [forallb] in Hp. rewrite andb_true_r in Hp. now apply negb_true_iff.
Qed.

Lemma absolute_value_written_as_given_witness :
  set_values (fst (run init_device_database plain ["/dev/usb/hiddev0"; "20000"]
                     (single (studio_display 30000)))) = [20000]
  /\ Forall (eq 20000)
       (set_values (fst (run init_device_database plain
                           (["/dev/usb/hiddev0"; "/dev/usb/hiddev1"] ++ ["20000"])
                           (devices [keyboard; studio_display 30000])))).
Proof.
  assert (Hm : token_magnitude "20000" <= C.INT_MAX) by (vm_compute; discriminate).
  split.
  - refine (proj2 (absolute_value_written_as_given init_device_database plain
                     (single (studio_display 30000)) ["/dev/usb/hiddev0"] "20000"
                     eq_refl eq_refl eq_refl eq_refl eq_refl Hm)
                  "/dev/usb/hiddev0" eq_refl _).
    unfold ready. repeat split; try (vm_compute; discriminate).
    right. vm_compute. discriminate.
  - exact (proj1 (absolute_value_written_as_given init_device_database plain
                    (devices [keyboard; studio_display 30000])
                    ["/dev/usb/hiddev0"; "/dev/usb/hiddev1"] "20000"
                    eq_refl eq_refl eq_refl eq_refl eq_refl Hm)).
Defined.

(** ** The relative mode *)







(** ** Percentages *)

Lemma quot_100_bounds (x : Z) : 0 <= x -> 0 <= x ÷ 100 <= x.
Proof.
  intros H. rewrite Z.quot_div_nonneg by lia.
  split; [apply Z.div_pos; lia|].
  apply Z.div_le_upper_bound; lia.
Qed.

Lemma quot_100_le (x s : Z) : 0 <= x -> x <= 100 * s -> x ÷ 100 <= s.
Proof.
  intros H0 H. rewrite Z.quot_div_nonneg by lia.
  apply Z.div_le_upper_bound; lia.
Qed.

(** The percent block on an absolute percentage. *)
Lemma scale_percent_absolute (dev : DeviceId) (v : vars) :
  percent v = true -> amount v = 0 ->
  scale_percent (Some dev) v
  = ret (mkVars (mode v)
           (C.add (C.div (C.mul (C.min (C.max (brightness v) 0) 100)
                            (C.sub (brightness_max dev) (brightness_min dev))) 100)
                  (brightness_min dev))
           (amount v) (percent v) (first_device v) (files v)).
Proof. intros Hp Ha. unfold scale_percent. now rewrite Hp, Ha. Qed.

(** The percent block on a relative percentage that is not zero. *)
Lemma scale_percent_relative (dev : DeviceId) (v : vars) :
  percent v = true -> amount v <> 0 ->
  scale_percent (Some dev) v
  = ret (mkVars (mode v) (brightness v)
           (C.div (C.mul (amount v)
                     (C.sub (brightness_max dev) (brightness_min dev))) 100)
           (percent v) (first_device v) (files v)).
Proof.
  intros Hp Ha. unfold scale_percent. rewrite Hp.
  apply Z.eqb_neq in Ha. now rewrite Ha.
Qed.


Lemma studio_display_ready (o : options) (cur : Z) :
  ready init_device_database o 3 (studio_display cur).
Proof.
  unfold ready. repeat split; try (vm_compute; discriminate).
  right. vm_compute. discriminate.
Qed.


(** ** The device handle *)

Lemma probe_not_close (fd : Z) (t : list event) :
  forallb (is_probe fd) t = true -> existsb is_close t = false.
Proof.
  induction t as [|e t IH]; simpl; auto. intros H.
  apply andb_prop in H as [He Ht]. rewrite (IH Ht).
  destruct e as [| fd' [] rc | | |]; simpl in He; try discriminate. reflexivity.
Qed.

Lemma closes_bind {A B} (m : proc A) (f : A -> proc B) :
  existsb is_close (fst (bind m f))
  = existsb is_close (fst m) || match snd m with
                                | Normal a => existsb is_close (fst (f a))
                                | _ => false
                                end.
Proof.
  unfold bind. destruct (snd m); cbn [fst]; rewrite ?existsb_app, ?orb_false_r; reflexivity.
Qed.

Lemma set_brightness_no_close (d : hiddev) (fd value : Z) :
  existsb is_close (fst (set_brightness d fd value)) = false.
Proof.
  unfold set_brightness. step.
  destruct (hd_susage d value <? 0); step; [reflexivity|].
  destruct (hd_sreport d <? 0); step; reflexivity.
Qed.

Lemma get_brightness_no_close (d : hiddev) (fd : Z) (n : nat) :
  existsb is_close (fst (get_brightness d fd n)) = false.
Proof.
  unfold get_brightness. step.
  destruct (fst (hd_gusage d n) <? 0); step; [reflexivity|].
  destruct (hd_greport d n <? 0); step; reflexivity.
Qed.

Ltac no_close :=
  repeat (rewrite ?closes_bind, ?set_brightness_no_close, ?get_brightness_no_close;
          cbn [fst snd app ret emit null_dereference existsb is_close orb];
          try match goal with
              | |- context [match ?x with Normal _ => _ | Continue => _ | Stop _ => _ end] =>
                  destruct x
              | |- context [if ?b then _ else _] => destruct b
              | |- context [match ?x with Some _ => _ | None => _ end] => destruct x
              end).

Lemma scale_percent_cases (sel : option DeviceId) (v : vars) :
  (exists v1, scale_percent sel v = ret v1) \/ scale_percent sel v = null_dereference.
Proof.
  unfold scale_percent. destruct (percent v); [|left; eauto].
  destruct sel; [|now right]. destruct (amount v =? 0); left; eauto.
Qed.

(** The transaction closes the handle as its last step only: when it ends
    by [exit], nothing has been closed. *)
Lemma transaction_leaves_open (o : options) (sel : option DeviceId) (d : hiddev)
    (fd : Z) (path : string) (v : vars) :
  match snd (transaction o sel d fd path v) with
  | Normal _ => True
  | _ => existsb is_close (fst (transaction o sel d fd path v)) = false
  end.
Proof.
  unfold transaction.
  destruct (scale_percent_cases sel v) as [[v1 ->]| ->]; [|reflexivity].
  rewrite bind_ret.
  match goal with
  | |- context [bind ?x ?f] =>
      match x with
      | (if _ then _ else _) => set (body := x)
      end
  end.
  assert (Hbody : existsb is_close (fst body) = false).
  { subst body. unfold clamp_relative. no_close; reflexivity. }
  rewrite (bind_flow body). destruct (snd body); cbn [fst snd]; auto.
  rewrite bind_emit. cbn [fst snd ret]. exact I.
Qed.

(** Every way out of a round other than its end leaves the handle as it is:
    no [close] is issued when the round ends by [continue] (a probe in
    detect mode, a device that is not a USB monitor) or by [exit]. *)
Lemma round_leaves_open (db : database) (o : options) (k : kernel) (m : open_flags)
    (n : nat) (v : vars) (path : string) :
  match snd (process_device db o k m n v path) with
  | Normal _ => True
  | _ => existsb is_close (fst (process_device db o k m n v path)) = false
  end.
Proof.
  unfold process_device.
  destruct (k n path m) as [fd d]. cbn [fst snd].
  destruct (is_usb_monitor_spec d fd) as (tp & Ep & Hp).
  apply probe_not_close in Hp.
  pose proof (transaction_leaves_open o (is_supported db d) d fd path v) as HT.
  set (T := transaction o (is_supported db d) d fd path v) in *.
  step. destruct (fd <? 0); step; [reflexivity|].
  destruct (negb (silent o) && first_device v); step;
    (destruct (usage_mode_eqb (mode v) USAGE_MODE_DETECT);
     [ rewrite Ep; step;
       destruct (existsb monitor_application (applications d)); step;
       rewrite !existsb_cons, existsb_app, Hp; reflexivity
     | destruct (is_supported db d) eqn:Hs; step;
       [ rewrite Ep; step;
         destruct (existsb monitor_application (applications d)); step;
         [ destruct (hd_initreport d <? 0); step;
           [ rewrite !existsb_cons, existsb_app, Hp; reflexivity
           | destruct (snd T); auto;
             rewrite !existsb_cons, existsb_app, Hp, !existsb_cons, HT; reflexivity ]
         | rewrite !existsb_cons, existsb_app, Hp; reflexivity ]
       | destruct (force o); step;
         [ rewrite Ep; step;
           destruct (existsb monitor_application (applications d)); step;
           [ destruct (hd_initreport d <? 0); step;
             [ rewrite !existsb_cons, existsb_app, Hp; reflexivity
             | destruct (snd T); auto;
               rewrite !existsb_cons, existsb_app, Hp, !existsb_cons, HT; reflexivity ]
           | rewrite !existsb_cons, existsb_app, Hp; reflexivity ]
         | reflexivity ] ] ]).
Qed.

(** C8. The handle is not closed on the paths that leave the round by
    [continue]: in detect mode two displays are opened (descriptors 3 and 4)
    and neither is closed; in get mode a device that is not a USB monitor is
    opened and left open, while the display after it is closed. *)
Theorem handle_left_open_on_continue :
  filter (fun e => is_open e || is_close e)
    (fst (main detecting ["/dev/usb/hiddev0"; "/dev/usb/hiddev1"]
            (single (studio_display 30000))))
  = [Open "/dev/usb/hiddev0" O_RDONLY 3; Open "/dev/usb/hiddev1" O_RDONLY 4]
  /\ filter (fun e => is_open e || is_close e)
       (fst (main plain ["/dev/usb/hiddev0"; "/dev/usb/hiddev1"]
               (devices [display_without_monitor_application; studio_display 30000])))
     = [Open "/dev/usb/hiddev0" O_RDONLY 3; Open "/dev/usb/hiddev1" O_RDONLY 4; Close 4].
Proof. split; reflexivity. Qed.

(** ** Remarks on invocations outside the claims *)

(** The percent block rewrites [brightness] and [amount] in place, and the
    device loop carries them to the next round: with two displays, the second
    one is given the percentage of the value computed for the first. *)
Lemma percent_block_runs_once_per_display :
  set_values (fst (main plain ["/dev/usb/hiddev0"; "/dev/usb/hiddev1"; "50%"]
                     (single (studio_display 30000)))) = [30200; 60000]
  /\ set_values (fst (main plain ["/dev/usb/hiddev0"; "/dev/usb/hiddev1"; "+10%"]
                        (single (studio_display 30000)))) = [35960; 60000].
Proof. split; reflexivity. Qed.

(** The percent block tells the absolute mode from the relative one by
    [amount == 0]; an earlier relative token leaves its [amount] behind. *)
Lemma earlier_token_leaves_amount :
  set_values (fst (main plain ["/dev/usb/hiddev0"; "+10"; "50%"]
                     (single (studio_display 30000)))) = [50].
Proof. reflexivity. Qed.

(** [atoi] on the tokens of the documentation. *)
Lemma atoi_samples :
  map C.atoi ["0"; "+5960"; "-5960"; "20%"; "+10%"; "999999"; "+"]
  = [0; 5960; -5960; 20; 10; 999999; 0].
Proof. reflexivity. Qed.

(** * The rest of the program *)

(** ** The grammar of [number] and [isPercent] *)

Lemma char_inj (c d : ascii) : C.char c = C.char d -> c = d.
Proof.
  unfold C.char. intros H.
  assert (Hc : (N_of_ascii c < 256)%N) by apply N_ascii_bounded.
  assert (Hd : (N_of_ascii d < 256)%N) by apply N_ascii_bounded.
  assert (E : N_of_ascii c = N_of_ascii d).
  { destruct (Z.ltb_spec (Z.of_N (N_of_ascii c)) 128);
      destruct (Z.ltb_spec (Z.of_N (N_of_ascii d)) 128); lia. }
  rewrite <- (ascii_N_embedding c), <- (ascii_N_embedding d). now rewrite E.
Qed.

Lemma is_char_eq (c d : ascii) : C.is_char c d = true <-> c = d.
Proof.
  unfold C.is_char. rewrite Z.eqb_eq. split; [apply char_inj|now intros ->].
Qed.

Lemma digit_not_special (c : ascii) :
  C.is_digit c = true ->
  C.is_nul c = false /\ C.is_char c "%" = false /\
  C.is_char c "+" = false /\ C.is_char c "-" = false.
Proof.
  unfold C.is_digit, C.is_nul, C.is_char.
  change (C.char "%") with 37. change (C.char "+") with 43. change (C.char "-") with 45.
  intros H. apply andb_prop in H as [H1 H2]. apply Z.leb_le in H1, H2.
  repeat split; apply Z.eqb_neq; lia.
Qed.

Lemma not_digit_test (c : ascii) :
  (C.char c <? 48) || (57 <? C.char c) = negb (C.is_digit c).
Proof.
  unfold C.is_digit.
  destruct (Z.ltb_spec (C.char c) 48), (Z.ltb_spec 57 (C.char c)),
    (Z.leb_spec 48 (C.char c)), (Z.leb_spec (C.char c) 57); simpl; auto; lia.
Qed.

(** After a percent sign the loop of [number] accepts nothing more. *)
Lemma number_loop_after_percent (s : string) :
  no_nul s = true -> number_loop true s = true -> s = "".
Proof.
  destruct s as [|c s]; [reflexivity|]. unfold no_nul. cbn [string_forall number_loop].
  intros Hn. apply andb_prop in Hn as [Hc _]. apply negb_true_iff in Hc. rewrite Hc.
  rewrite andb_false_r. discriminate.
Qed.

Lemma number_loop_grammar (s : string) :
  no_nul s = true ->
  number_loop false s = true ->
  all_digits s = true \/
  exists ds, s = (ds ++ "%")%string /\ all_digits ds = true.
Proof.
  induction s as [|c s IH]; [now left|].
  unfold no_nul, all_digits in *. cbn [string_forall number_loop].
  intros Hn. apply andb_prop in Hn as [Hc Hs]. apply negb_true_iff in Hc. rewrite Hc.
  destruct (C.is_char c "%") eqn:Hp; cbn [andb negb].
  - intros H. apply (number_loop_after_percent s Hs) in H. subst s.
    right. exists "". apply is_char_eq in Hp. subst c. split; reflexivity.
  - rewrite not_digit_test. destruct (C.is_digit c) eqn:Hd; cbn [negb]; [|discriminate].
    intros H. destruct (IH Hs H) as [Ha|(ds & -> & Ha)].
    + left. now rewrite Ha.
    + right. exists (String c ds). cbn [string_forall append]. rewrite Hd, Ha. auto.
Qed.

Lemma number_loop_digits (s : string) :
  all_digits s = true -> number_loop false s = true.
Proof.
  induction s as [|c s IH]; [reflexivity|].
  unfold all_digits in *. cbn [string_forall number_loop].
  intros H. apply andb_prop in H as [Hd Hs].
  destruct (digit_not_special c Hd) as (-> & -> & _). cbn [andb].
  rewrite not_digit_test, Hd. cbn [negb]. auto.
Qed.

Lemma number_loop_digits_percent (ds : string) :
  all_digits ds = true -> number_loop false (ds ++ "%") = true.
Proof.
  induction ds as [|c s IH]; [reflexivity|].
  unfold all_digits in *. cbn [string_forall number_loop append].
  intros H. apply andb_prop in H as [Hd Hs].
  destruct (digit_not_special c Hd) as (-> & -> & _). cbn [andb].
  rewrite not_digit_test, Hd. cbn [negb]. auto.
Qed.

(** X1. The grammar of [number]: a C string is accepted exactly when it is a
    digit or a sign, then digits, then at most one percent sign at the very
    end. The digits after a sign may be none. *)
Theorem number_grammar (s : string) :
  no_nul s = true ->
  (number s = true <->
   exists c body,
     s = String c body /\
     (C.is_digit c = true \/ c = "+"%char \/ c = "-"%char) /\
     (all_digits body = true \/
      exists ds, body = (ds ++ "%")%string /\ all_digits ds = true)).
Proof.
  intros Hn. unfold number, number_ptr. split.
  - destruct s as [|c body]; [discriminate|]. cbn [C.deref C.next].
    destruct (C.is_digit c || C.is_char c "+" || C.is_char c "-") eqn:Hc;
      cbn [negb]; [|discriminate].
    intros H. exists c, body. split; [reflexivity|]. split.
    + apply orb_prop in Hc as [Hc|Hc]; [apply orb_prop in Hc as [Hc|Hc]|].
      * now left.
      * right. left. now apply is_char_eq.
      * right. right. now apply is_char_eq.
    + apply number_loop_grammar; auto.
      unfold no_nul in *. cbn [string_forall] in Hn. now apply andb_prop in Hn as [_ ?].
  - intros (c & body & -> & Hc & Hb). cbn [C.deref C.next].
    replace (C.is_digit c || C.is_char c "+" || C.is_char c "-") with true.
    + cbn [negb]. destruct Hb as [Hb|(ds & -> & Hd)].
      * now apply number_loop_digits.
      * now apply number_loop_digits_percent.
    + symmetry. destruct Hc as [->|[->| ->]]; [reflexivity|..].
      * apply orb_true_iff. left. apply orb_true_iff. right. reflexivity.
      * apply orb_true_iff. right. reflexivity.
Qed.

Lemma number_grammar_witness :
  number "+10%" = true <->
  exists c body,
    "+10%" = String c body /\
    (C.is_digit c = true \/ c = "+"%char \/ c = "-"%char) /\
    (all_digits body = true \/
     exists ds, body = (ds ++ "%")%string /\ all_digits ds = true).
Proof. exact (number_grammar "+10%" eq_refl). Defined.

Lemma isPercent_loop_after_percent (s : string) :
  no_nul s = true -> isPercent_loop true s = true -> s = "".
Proof.
  destruct s as [|c s]; [reflexivity|]. unfold no_nul. cbn [string_forall isPercent_loop].
  intros Hn. apply andb_prop in Hn as [Hc _]. apply negb_true_iff in Hc. rewrite Hc.
  rewrite andb_false_r. discriminate.
Qed.

(** X2. [isPercent] does not look at what precedes the percent sign: a C
    string passes exactly when its last character is its only percent
    sign. *)
Theorem isPercent_grammar (s : string) :
  no_nul s = true ->
  (isPercent s = true <->
   exists body, s = (body ++ "%")%string /\ no_percent body = true).
Proof.
  unfold isPercent, isPercent_ptr. intros Hn. split.
  - induction s as [|c s IH]; [discriminate|].
    unfold no_nul, no_percent in *. cbn [string_forall isPercent_loop] in *.
    apply andb_prop in Hn as [Hc Hs]. apply negb_true_iff in Hc. rewrite Hc.
    destruct (C.is_char c "%") eqn:Hp; cbn [andb negb].
    + intros H. apply (isPercent_loop_after_percent s Hs) in H. subst s.
      exists "". apply is_char_eq in Hp. subst c. split; reflexivity.
    + intros H. destruct (IH Hs H) as (body & -> & Hb).
      exists (String c body). cbn [string_forall append]. rewrite Hp, Hb. auto.
  - intros (body & -> & Hb).
    assert (Hn' : no_nul body = true).
    { clear - Hn. induction body as [|c b IH]; [reflexivity|].
      unfold no_nul in *. cbn [string_forall append] in *.
      apply andb_prop in Hn as [-> Hn]. now apply IH. }
    clear Hn. induction body as [|c b IH]; [reflexivity|].
    unfold no_nul, no_percent in *. cbn [string_forall append isPercent_loop] in *.
    apply andb_prop in Hb as [Hc Hb]. apply andb_prop in Hn' as [Hz Hn'].
    apply negb_true_iff in Hc, Hz. rewrite Hc, Hz. cbn [andb]. auto.
Qed.

Lemma isPercent_grammar_witness :
  isPercent "abc%" = true <->
  exists body, "abc%" = (body ++ "%")%string /\ no_percent body = true.
Proof. exact (isPercent_grammar "abc%" eq_refl). Defined.

Lemma digit_run_percent (ds : string) : forall acc,
  all_digits ds = true -> C.digit_run acc (ds ++ "%") = C.digit_run acc ds.
Proof.
  induction ds as [|c ds IH]; intros acc H; [reflexivity|].
  unfold all_digits in *. cbn [string_forall append C.digit_run] in *.
  apply andb_prop in H as [-> H]. now apply IH.
Qed.

Lemma isPercent_digits_percent (ds : string) :
  all_digits ds = true -> isPercent_loop false (ds ++ "%") = true.
Proof.
  induction ds as [|c s IH]; [reflexivity|].
  unfold all_digits in *. cbn [string_forall isPercent_loop append].
  intros H. apply andb_prop in H as [Hd Hs].
  destruct (digit_not_special c Hd) as (-> & -> & _). cbn [andb]. auto.
Qed.

Lemma isPercent_digits (ds : string) :
  all_digits ds = true -> isPercent_loop false ds = false.
Proof.
  induction ds as [|c s IH]; [reflexivity|].
  unfold all_digits in *. cbn [string_forall isPercent_loop].
  intros H. apply andb_prop in H as [Hd Hs].
  destruct (digit_not_special c Hd) as (-> & -> & _). cbn [andb]. auto.
Qed.

(** X3. The percent sign of a token only sets the flag: a sign or digit,
    then digits, then a percent sign is accepted by [number], flagged by
    [isPercent], and read by [atoi] as the same number as the token without
    its percent sign, which is accepted and not flagged. *)
Theorem percent_sign_only_flags (c : ascii) (ds : string) :
  C.is_digit c = true \/ c = "+"%char \/ c = "-"%char ->
  all_digits ds = true ->
  number (String c (ds ++ "%")) = true /\
  isPercent (String c (ds ++ "%")) = true /\
  number (String c ds) = true /\
  isPercent (String c ds) = false /\
  C.atoi (String c (ds ++ "%")) = C.atoi (String c ds).
Proof.
  intros Hc Hd.
  assert (Hfirst : C.is_digit c || C.is_char c "+" || C.is_char c "-" = true).
  { destruct Hc as [->|[->| ->]]; [reflexivity|..]; apply orb_true_iff.
    - left. apply orb_true_iff. now right.
    - now right. }
  assert (Hspecial : C.is_nul c = false /\ C.is_char c "%" = false /\ C.isspace c = false).
  { destruct Hc as [Hc|[->| ->]]; [|repeat split; reflexivity..].
    destruct (digit_not_special c Hc) as (? & ? & _). repeat split; auto.
    unfold C.isspace, C.is_digit in *. apply andb_prop in Hc as [H1 H2].
    apply Z.leb_le in H1, H2.
    destruct (Z.eqb_spec (C.char c) 32); [lia|].
    destruct (Z.leb_spec 9 (C.char c)); destruct (Z.leb_spec (C.char c) 13);
      simpl; auto; lia. }
  destruct Hspecial as (Hz & Hp & Hsp).
  unfold number, number_ptr, isPercent, isPercent_ptr.
  cbn [C.deref C.next isPercent_loop]. rewrite Hfirst, Hz, Hp. cbn [negb andb].
  repeat split.
  - now apply number_loop_digits_percent.
  - now apply isPercent_digits_percent.
  - now apply number_loop_digits.
  - now apply isPercent_digits.
  - unfold C.atoi, C.strtol. cbn [C.skip_space]. rewrite Hsp. cbn [C.deref C.next].
    cbn [C.digit_run]. rewrite !digit_run_percent by assumption. reflexivity.
Qed.

Lemma percent_sign_only_flags_witness :
  number "-15%" = true /\ isPercent "-15%" = true /\
  number "-15" = true /\ isPercent "-15" = false /\
  C.atoi "-15%" = C.atoi "-15".
Proof.
  exact (percent_sign_only_flags "-" "15" (or_intror (or_intror eq_refl)) eq_refl).
Defined.

(** ** The older revision *)

Lemma legacy_loop_digits (s : string) :
  no_nul s = true -> Legacy.number_loop s = all_digits s.
Proof.
  induction s as [|c s IH]; [reflexivity|].
  unfold no_nul, all_digits in *. cbn [string_forall Legacy.number_loop].
  intros H. apply andb_prop in H as [Hc Hs]. apply negb_true_iff in Hc. rewrite Hc.
  fold (C.is_digit c). destruct (C.is_digit c); cbn [negb andb]; auto.
Qed.

(** X4. The older [number] accepts the C strings made of one digit or more
    and nothing else: no sign, no percent sign. *)
Theorem legacy_number_grammar (s : string) :
  no_nul s = true ->
  (Legacy.number s = true <-> s <> "" /\ all_digits s = true).
Proof.
  intros Hn. unfold Legacy.number, Legacy.number_ptr.
  destruct s as [|c s]; [split; [discriminate|intros [H _]; now destruct H]|].
  cbn [C.deref]. rewrite (legacy_loop_digits _ Hn).
  unfold all_digits. cbn [string_forall].
  destruct (C.is_digit c) eqn:Hd; cbn [orb negb andb].
  - split; [intros H; split; [discriminate|assumption]|now intros [_ H]].
  - split; [|now intros [_ H]].
    destruct (C.is_char c "+" || C.is_char c "-"); discriminate.
Qed.

Lemma legacy_number_grammar_witness :
  Legacy.number "5960" = true <-> "5960" <> "" /\ all_digits "5960" = true.
Proof. exact (legacy_number_grammar "5960" eq_refl). Defined.

Lemma legacy_number_signed (s : string) : signed s = true -> Legacy.number s = false.
Proof.
  unfold signed, Legacy.number, Legacy.number_ptr.
  destruct s as [|c s]; [discriminate|]. cbn [C.deref Legacy.number_loop].
  intros H. apply orb_prop in H as [H|H]; apply is_char_eq in H; subst c; reflexivity.
Qed.

Lemma legacy_parse_param_invariant (v : vars) (arg : string) :
  mode v <> USAGE_MODE_SETREL ->
  mode (LegacyMain.parse_param v arg) <> USAGE_MODE_SETREL /\
  amount (LegacyMain.parse_param v arg) = amount v /\
  (exists more, files (LegacyMain.parse_param v arg) = files v ++ more) /\
  (signed arg = true -> files (LegacyMain.parse_param v arg) = files v ++ [arg]).
Proof.
  intros Hm. unfold LegacyMain.parse_param. fold (signed arg).
  destruct (signed arg) eqn:Hs.
  - rewrite (legacy_number_signed arg Hs), andb_false_r. cbn.
    repeat split; auto. now exists [arg].
  - destruct (negb _ && Legacy.number arg); cbn.
    + repeat split; try congruence. exists []. now rewrite app_nil_r.
    + repeat split; auto; try discriminate. now exists [arg].
Qed.

Lemma legacy_parse_params_invariant (args : list string) : forall v,
  mode v <> USAGE_MODE_SETREL ->
  mode (LegacyMain.parse_params v args) <> USAGE_MODE_SETREL /\
  amount (LegacyMain.parse_params v args) = amount v /\
  (forall a, In a (files v) \/ In a args /\ signed a = true ->
             In a (files (LegacyMain.parse_params v args))).
Proof.
  induction args as [|arg args IH]; intros v Hm.
  - cbn. repeat split; auto. intros a [H|[[] _]]. exact H.
  - change (LegacyMain.parse_params v (arg :: args))
      with (LegacyMain.parse_params (LegacyMain.parse_param v arg) args).
    destruct (legacy_parse_param_invariant v arg Hm) as (Hm' & Ha & (more & Hf) & Hs).
    destruct (IH _ Hm') as (Hm'' & Ha' & Hf'). repeat split; auto; [congruence|].
    intros a [H|[[->|H] Hsa]]; apply Hf'.
    + left. rewrite Hf. apply in_or_app. now left.
    + left. rewrite (Hs Hsa). apply in_or_app. right. now left.
    + right. auto.
Qed.

(** X5. The older revision cannot adjust relatively: its argument loop
    never selects [USAGE_MODE_SETREL] and never sets [amount], because its
    [number] refuses every token with a sign; such a token ends up among the
    device paths. *)
Theorem legacy_never_relative (o : options) (args : list string) :
  let v := LegacyMain.parse_params (initial_vars o) args in
  mode v <> USAGE_MODE_SETREL /\ amount v = 0 /\
  forall a, In a args -> signed a = true -> In a (files v).
Proof.
  intros v. subst v.
  destruct (legacy_parse_params_invariant args (initial_vars o)) as (Hm & Ha & Hf).
  - unfold initial_vars. cbn. destruct (detect o); discriminate.
  - repeat split; auto.
Qed.

(** ** The device database *)

Lemma DeviceId_lt_spec (a b : DeviceId) :
  DeviceId_lt a b = true <->
  vendor a < vendor b \/ vendor a = vendor b /\ product a < product b.
Proof.
  unfold DeviceId_lt.
  rewrite orb_true_iff, andb_true_iff, !Z.ltb_lt, Z.eqb_eq. reflexivity.
Qed.

Lemma DeviceId_lt_false (a b : DeviceId) :
  DeviceId_lt a b = false <->
  vendor b < vendor a \/ vendor a = vendor b /\ product b <= product a.
Proof.
  rewrite <- not_true_iff_false, DeviceId_lt_spec. lia.
Qed.

Lemma DeviceId_equiv_spec (a b : DeviceId) :
  DeviceId_equiv a b = true <-> vendor a = vendor b /\ product a = product b.
Proof.
  unfold DeviceId_equiv. rewrite andb_true_iff, !negb_true_iff, !DeviceId_lt_false. lia.
Qed.

(** X6. [DeviceId::operator <] is a strict weak ordering on the pair
    (vendor, product): irreflexive and transitive, and two identifiers are
    not told apart exactly when their vendors and their products are equal,
    whatever their descriptions and bounds. *)
Theorem DeviceId_lt_ordering :
  (forall a, DeviceId_lt a a = false) /\
  (forall a b c, DeviceId_lt a b = true -> DeviceId_lt b c = true ->
                 DeviceId_lt a c = true) /\
  (forall a b, DeviceId_equiv a b = true <->
               vendor a = vendor b /\ product a = product b).
Proof.
  split; [|split].
  - intros a. apply DeviceId_lt_false. lia.
  - intros a b c. rewrite !DeviceId_lt_spec. lia.
  - apply DeviceId_equiv_spec.
Qed.

Lemma set_sorted_cons (x : DeviceId) (s : SupportedDevices) :
  set_sorted (x :: s) = true <->
  set_sorted s = true /\ match s with [] => True | y :: _ => DeviceId_lt x y = true end.
Proof.
  destruct s as [|y r]; cbn [set_sorted]; [tauto|].
  rewrite andb_true_iff. tauto.
Qed.

Lemma set_insert_head (x y : DeviceId) (s : SupportedDevices) :
  DeviceId_lt y x = true ->
  match s with [] => True | z :: _ => DeviceId_lt y z = true end ->
  match set_insert x s with [] => True | z :: _ => DeviceId_lt y z = true end.
Proof.
  intros Hyx Hs. destruct s as [|z r]; cbn [set_insert]; [assumption|].
  destruct (DeviceId_lt x z); [assumption|].
  destruct (DeviceId_lt z x); assumption.
Qed.

Lemma set_insert_sorted (x : DeviceId) (s : SupportedDevices) :
  set_sorted s = true -> set_sorted (set_insert x s) = true.
Proof.
  induction s as [|y r IH]; [reflexivity|]. intros Hs. cbn [set_insert].
  destruct (DeviceId_lt x y) eqn:Hxy.
  - apply set_sorted_cons. auto.
  - destruct (DeviceId_lt y x) eqn:Hyx; [|assumption].
    apply set_sorted_cons in Hs as [Hr Hh]. apply set_sorted_cons. split; auto.
    now apply set_insert_head.
Qed.


Lemma set_find_above (x : DeviceId) (s : SupportedDevices) :
  set_sorted s = true ->
  match s with [] => True | y :: _ => DeviceId_lt x y = true end ->
  set_find x s = None.
Proof.
  induction s as [|y r IH]; [reflexivity|]. intros Hs Hxy. cbn [set_find].
  rewrite Hxy. cbn [orb]. apply set_sorted_cons in Hs as [Hr Hh].
  apply IH; auto. destruct r as [|z r']; [exact I|].
  apply DeviceId_lt_spec in Hxy, Hh. apply DeviceId_lt_spec. lia.
Qed.

(** The element a lookup returns has the identifiers asked for, and is in
    the set. *)
Lemma set_find_sound (x y : DeviceId) (s : SupportedDevices) :
  set_find x s = Some y -> In y s /\ vendor y = vendor x /\ product y = product x.
Proof.
  induction s as [|z r IH]; [discriminate|]. cbn [set_find].
  destruct (DeviceId_lt x z || DeviceId_lt z x) eqn:E.
  - intros H. destruct (IH H) as (? & ? & ?). repeat split; auto. now right.
  - intros H. inversion H. subst z. apply orb_false_elim in E as [E1 E2].
    apply DeviceId_lt_false in E1, E2. split; [now left|lia].
Qed.

Lemma set_find_complete (x : DeviceId) (s : SupportedDevices) :
  (exists y, In y s /\ vendor y = vendor x /\ product y = product x) ->
  set_find x s <> None.
Proof.
  induction s as [|z r IH]; intros (y & Hin & Hv & Hp); [destruct Hin|].
  cbn [set_find]. destruct (DeviceId_lt x z || DeviceId_lt z x) eqn:E; [|discriminate].
  destruct Hin as [->|Hin]; [|apply IH; eauto].
  apply orb_prop in E as [E|E]; apply DeviceId_lt_spec in E; lia.
Qed.

(** X7. Insertion and lookup in the set of supported devices. Inserting a
    device in a sorted set keeps it sorted; the device is then found by its
    identifiers, as itself when no device with its vendor and product was
    there, as the one that was there otherwise (the set is then unchanged:
    the description and bounds of the newcomer are dropped); lookups of other
    identifiers are not affected. *)
Theorem set_insert_find (x : DeviceId) (s : SupportedDevices) :
  set_sorted s = true ->
  set_sorted (set_insert x s) = true /\
  (exists y,
     set_find x (set_insert x s) = Some y /\
     match set_find x s with
     | Some y0 => y = y0 /\ set_insert x s = s
     | None => y = x
     end) /\
  (forall z, DeviceId_equiv x z = false ->
             set_find z (set_insert x s) = set_find z s).
Proof.
  intros Hs. split; [now apply set_insert_sorted|]. split.
  - assert (Hxx : DeviceId_lt x x = false) by (apply DeviceId_lt_false; lia).
    induction s as [|y r IH]; cbn [set_insert set_find].
    + rewrite Hxx. cbn. eauto.
    + apply set_sorted_cons in Hs as [Hr Hh].
      destruct (DeviceId_lt x y) eqn:Hxy; cbn [set_find orb].
      * rewrite Hxx. cbn [orb]. exists x. split; [reflexivity|].
        rewrite (set_find_above x r Hr); [reflexivity|].
        destruct r as [|z r']; [exact I|].
        apply DeviceId_lt_spec in Hxy, Hh. apply DeviceId_lt_spec. lia.
      * destruct (DeviceId_lt y x) eqn:Hyx; cbn [set_find orb].
        -- rewrite Hxy, Hyx. cbn [orb]. destruct (IH Hr) as (y' & Hf & Hm).
           exists y'. split; [assumption|].
           destruct (set_find x r); [|assumption].
           destruct Hm as [-> ->]. auto.
        -- rewrite Hxy, Hyx. cbn [orb]. eauto.
  - intros z Hz. clear Hs.
    assert (Hxz : DeviceId_lt z x || DeviceId_lt x z = true).
    { unfold DeviceId_equiv in Hz. apply andb_false_iff in Hz as [Hz|Hz];
        apply negb_false_iff in Hz; rewrite Hz; auto using orb_true_r. }
    induction s as [|y r IH]; cbn [set_insert set_find].
    + now rewrite Hxz.
    + destruct (DeviceId_lt x y) eqn:Hxy; cbn [set_find].
      * now rewrite Hxz.
      * destruct (DeviceId_lt y x) eqn:Hyx; cbn [set_find]; [|reflexivity].
        destruct (DeviceId_lt z y || DeviceId_lt y z); auto.
Qed.

Lemma set_insert_find_witness :
  set_sorted (set_insert (mkDeviceId 0x05ac 0x9243 "Pro Display XDR" 400 50000)
                (supportedDevices init_device_database)) = true /\
  (exists y,
     set_find (mkDeviceId 0x05ac 0x9243 "Pro Display XDR" 400 50000)
       (set_insert (mkDeviceId 0x05ac 0x9243 "Pro Display XDR" 400 50000)
          (supportedDevices init_device_database)) = Some y /\
     match set_find (mkDeviceId 0x05ac 0x9243 "Pro Display XDR" 400 50000)
             (supportedDevices init_device_database) with
     | Some y0 => y = y0 /\
                  set_insert (mkDeviceId 0x05ac 0x9243 "Pro Display XDR" 400 50000)
                    (supportedDevices init_device_database)
                  = supportedDevices init_device_database
     | None => y = mkDeviceId 0x05ac 0x9243 "Pro Display XDR" 400 50000
     end) /\
  (forall z, DeviceId_equiv (mkDeviceId 0x05ac 0x9243 "Pro Display XDR" 400 50000) z = false ->
             set_find z (set_insert (mkDeviceId 0x05ac 0x9243 "Pro Display XDR" 400 50000)
                           (supportedDevices init_device_database))
             = set_find z (supportedDevices init_device_database)).
Proof.
  exact (set_insert_find (mkDeviceId 0x05ac 0x9243 "Pro Display XDR" 400 50000)
           (supportedDevices init_device_database) eq_refl).
Defined.

(** X8. [is_supported] looks at the low 16 bits of the vendor and of the
    product only, and answers with a device of the database that has exactly
    these two identifiers; it answers whenever the database holds one. *)
Theorem is_supported_characterisation (db : database) (d : hiddev) :
  (forall dev, is_supported db d = Some dev ->
     In dev (supportedDevices db) /\
     vendor dev = Z.land (hd_vendor d) 0xFFFF /\
     product dev = Z.land (hd_product d) 0xFFFF) /\
  ((exists dev, In dev (supportedDevices db) /\
                vendor dev = Z.land (hd_vendor d) 0xFFFF /\
                product dev = Z.land (hd_product d) 0xFFFF) ->
   is_supported db d <> None) /\
  (forall d', Z.land (hd_vendor d') 0xFFFF = Z.land (hd_vendor d) 0xFFFF ->
              Z.land (hd_product d') 0xFFFF = Z.land (hd_product d) 0xFFFF ->
              is_supported db d' = is_supported db d).
Proof.
  unfold is_supported. split; [|split].
  - intros dev H. apply set_find_sound in H. exact H.
  - intros H. apply set_find_complete. exact H.
  - intros d' -> ->. reflexivity.
Qed.

(** X9. The database that [init_device_database] builds: a device is
    supported exactly when the low 16 bits of its vendor are 0x05ac and those
    of its product 0x1114, and it then has the bounds 400 and 60000; the one
    known vendor is 0x05ac. *)
Theorem built_in_database (d : hiddev) (v : Z) :
  (is_supported init_device_database d <> None <->
   Z.land (hd_vendor d) 0xFFFF = 0x05ac /\ Z.land (hd_product d) 0xFFFF = 0x1114) /\
  (forall dev, is_supported init_device_database d = Some dev ->
               brightness_min dev = 400 /\ brightness_max dev = 60000) /\
  (known_vendor init_device_database v = true <-> Z.land v 0xFFFF = 0x05ac).
Proof.
  unfold is_supported, known_vendor. cbn [init_device_database supportedDevices
    supportedVendors set_insert map_insert set_find map_find].
  set (key := mkDeviceId _ _ _ _ _).
  set (entry := mkDeviceId APPLE _ _ _ _).
  assert (E : DeviceId_lt key entry || DeviceId_lt entry key = false <->
              Z.land (hd_vendor d) 65535 = 1452 /\ Z.land (hd_product d) 65535 = 4372).
  { rewrite orb_false_iff, !DeviceId_lt_false. subst key entry. cbn.
    unfold APPLE, STUDIO_DISPLAY_27. lia. }
  split; [|split].
  - destruct (DeviceId_lt key entry || DeviceId_lt entry key).
    + split; [intros H; now destruct H|]. intros H. apply E in H. discriminate.
    + split; [intros _; now apply E|discriminate].
  - intros dev. destruct (_ || _); [discriminate|]. intros H. inversion H. split; reflexivity.
  - unfold APPLE. destruct (Z.eqb_spec (Z.land v 65535) 1452); split; auto; discriminate.
Qed.

(** ** The probe *)

Lemma is_usb_monitor_loop_trace (d : hiddev) (fd : Z) : forall todo appl_num,
  is_usb_monitor_loop d fd appl_num todo
  = (map (fun n => Ioctl fd (HIDIOCAPPLICATION n) (hd_application d n))
       (seq appl_num
          match first_monitor (map (hd_application d) (seq appl_num todo)) with
          | Some i => S i
          | None => todo
          end),
     Normal (existsb monitor_application (map (hd_application d) (seq appl_num todo)))).
Proof.
  induction todo as [|todo IH]; intros appl_num; [reflexivity|].
  cbn [is_usb_monitor_loop seq map first_monitor existsb].
  rewrite bind_ioctl, <- monitor_application_test.
  destruct (monitor_application (hd_application d appl_num)); [reflexivity|].
  rewrite IH. cbn [fst snd orb].
  destruct (first_monitor _); reflexivity.
Qed.

(** X10. [is_usb_monitor] asks for the applications in increasing order from
    0, stops at the first one whose bits 16 to 23 are 0x80 and never asks
    beyond [num_applications]; its answer is whether there is such an
    application among the first [num_applications]. *)
Theorem is_usb_monitor_trace (d : hiddev) (fd : Z) :
  is_usb_monitor d fd
  = (map (fun n => Ioctl fd (HIDIOCAPPLICATION n) (hd_application d n))
       (seq 0 match first_monitor (applications d) with
              | Some i => S i
              | None => hd_num_applications d
              end),
     Normal (existsb monitor_application (applications d))).
Proof. apply is_usb_monitor_loop_trace. Qed.

(** ** The shape of a round *)

Lemma flat_map_cons {A B} (g : A -> list B) (e : A) (t : list A) :
  flat_map g (e :: t) = g e ++ flat_map g t.
Proof. reflexivity. Qed.

Lemma project_probe {X} (g : event -> list X) (fd : Z) (t : list event) :
  (forall e, quiet e = true -> g e = []) ->
  forallb (is_probe fd) t = true -> flat_map g t = [].
Proof.
  intros Hq. induction t as [|e t IH]; [reflexivity|]. cbn [forallb]. intros H.
  apply andb_prop in H as [He Ht]. rewrite flat_map_cons, (IH Ht), app_nil_r.
  apply Hq. destruct e as [| fd' [] rc | | |]; simpl in He; try discriminate; reflexivity.
Qed.

Lemma bind_stop {A B} (t : list event) (out : outcome) (f : A -> proc B) :
  bind (t, Stop out) f = (t, Stop out).
Proof. reflexivity. Qed.

Ltac step' := repeat (progress (step; rewrite ?bind_stop; cbn [fst snd])).

Ltac project Hq Hp :=
  repeat (first [ rewrite flat_map_app
                | rewrite flat_map_cons
                | rewrite Hp
                | rewrite (Hq (Ioctl _ HIDIOCGVERSION _)) by reflexivity
                | rewrite (Hq (Ioctl _ HIDIOCGDEVINFO _)) by reflexivity
                | rewrite (Hq (Ioctl _ HIDIOCINITREPORT _)) by reflexivity
                | rewrite (Hq (Stdout _)) by reflexivity
                | rewrite (Hq (Stderr _)) by reflexivity ]);
  cbn [flat_map app]; rewrite ?app_nil_r.

(** A round seen through a projection that shows nothing of the probe, of
    the initialisation and of the messages: it shows the [open], and then
    either the round ends before the transaction, without falling through,
    or the device is ready and the round goes on as its transaction. *)
Lemma round_project {X} (g : event -> list X) (db : database) (o : options)
    (k : kernel) (m : open_flags) (n : nat) (v : vars) (path : string) :
  (forall e, quiet e = true -> g e = []) ->
  let r := process_device db o k m n v path in
  let T := transaction o (is_supported db (snd (k n path m)))
             (snd (k n path m)) (fst (k n path m)) path v in
  (flat_map g (fst r) = g (Open path m (fst (k n path m))) /\
   (forall v', snd r <> Normal v') /\ snd r <> Stop NullPointer) \/
  (mode v <> USAGE_MODE_DETECT /\
   ready db o (fst (k n path m)) (snd (k n path m)) /\
   flat_map g (fst r) = g (Open path m (fst (k n path m))) ++ flat_map g (fst T) /\
   snd r = snd T).
Proof.
  intros Hq r T. subst r T. unfold process_device, ready.
  destruct (k n path m) as [fd d]. cbn [fst snd].
  destruct (is_usb_monitor_spec d fd) as (tp & Ep & Hp).
  apply (project_probe g fd tp Hq) in Hp.
  set (T := transaction o (is_supported db d) d fd path v).
  step'. destruct (Z.ltb_spec fd 0); step';
    [left; split; [now project Hq Hp|split; discriminate]|].
  destruct (negb (silent o) && first_device v); step';
    (destruct (usage_mode_eqb (mode v) USAGE_MODE_DETECT) eqn:Hm;
     [ rewrite Ep; step';
       destruct (existsb monitor_application (applications d)); step';
       left; (split; [now project Hq Hp|split; discriminate])
     | assert (Hm' : mode v <> USAGE_MODE_DETECT)
         by (intros E; rewrite E in Hm; discriminate);
       destruct (is_supported db d) eqn:Hs; step';
       [ rewrite Ep; step';
         destruct (existsb monitor_application (applications d)); step';
         [ destruct (Z.ltb_spec (hd_initreport d) 0); step';
           [ left; (split; [now project Hq Hp|split; discriminate])
           | right; repeat split; auto;
             [right; discriminate|now project Hq Hp] ]
         | left; (split; [now project Hq Hp|split; discriminate]) ]
       | destruct (force o); step';
         [ rewrite Ep; step';
           destruct (existsb monitor_application (applications d)); step';
           [ destruct (Z.ltb_spec (hd_initreport d) 0); step';
             [ left; (split; [now project Hq Hp|split; discriminate])
             | right; repeat split; auto; now project Hq Hp ]
           | left; (split; [now project Hq Hp|split; discriminate]) ]
         | left; (split; [now project Hq Hp|split; discriminate]) ] ] ]).
Qed.

Lemma project_bind {X A B} (g : event -> list X) (m : proc A) (f : A -> proc B) :
  flat_map g (fst (bind m f))
  = flat_map g (fst m) ++ match snd m with
                          | Normal a => flat_map g (fst (f a))
                          | _ => []
                          end.
Proof.
  unfold bind. destruct (snd m); cbn [fst]; rewrite ?flat_map_app, ?app_nil_r; reflexivity.
Qed.

Lemma snd_bind_normal {A B} (m : proc A) (f : A -> proc B) (b : B) :
  snd (bind m f) = Normal b ->
  exists a, snd m = Normal a /\ snd (f a) = Normal b.
Proof.
  unfold bind. destruct (snd m) as [a| |out]; cbn [snd]; try discriminate. eauto.
Qed.

Lemma snd_bind_null {A B} (m : proc A) (f : A -> proc B) :
  snd (bind m f) = Stop NullPointer ->
  snd m = Stop NullPointer \/ exists a, snd m = Normal a /\ snd (f a) = Stop NullPointer.
Proof.
  unfold bind. destruct (snd m) as [a| |out]; cbn [snd]; intros H.
  - right. exists a. split; [reflexivity|assumption].
  - discriminate.
  - left. now inversion H.
Qed.

(** The percent block keeps the mode and the flag, and stops only on a null
    [selected_device]. *)
Lemma scale_percent_result (sel : option DeviceId) (v : vars) :
  (exists v1, scale_percent sel v = ret v1 /\
              mode v1 = mode v /\ percent v1 = percent v) \/
  (scale_percent sel v = null_dereference /\ percent v = true /\ sel = None).
Proof.
  unfold scale_percent. destruct (percent v) eqn:Hp; [|left; eauto].
  destruct sel; [|now right]. destruct (amount v =? 0); left; eauto.
Qed.

Lemma set_brightness_flow (d : hiddev) (fd value : Z) :
  snd (set_brightness d fd value) <> Stop NullPointer /\
  snd (set_brightness d fd value) <> Continue.
Proof.
  unfold set_brightness. step'.
  destruct (hd_susage d value <? 0); step'; [split; discriminate|].
  destruct (hd_sreport d <? 0); step'; split; discriminate.
Qed.

Lemma get_brightness_flow (d : hiddev) (fd : Z) (n : nat) :
  snd (get_brightness d fd n) <> Stop NullPointer /\
  snd (get_brightness d fd n) <> Continue /\
  forall value, snd (get_brightness d fd n) = Normal value ->
                value = snd (hd_gusage d n) /\
                0 <= fst (hd_gusage d n) /\ 0 <= hd_greport d n.
Proof.
  unfold get_brightness. step'.
  destruct (Z.ltb_spec (fst (hd_gusage d n)) 0); step';
    [repeat split; discriminate|].
  destruct (Z.ltb_spec (hd_greport d n) 0); step'; [repeat split; discriminate|].
  split; [discriminate|]. split; [discriminate|].
  intros value0 H'. inversion H'. auto.
Qed.

(** What a transaction that runs to its end leaves in the locals: the mode
    and the percentage flag as they were, [first_device] false. *)
Lemma transaction_keeps (o : options) (sel : option DeviceId) (d : hiddev)
    (fd : Z) (path : string) (v v' : vars) :
  snd (transaction o sel d fd path v) = Normal v' ->
  mode v' = mode v /\ percent v' = percent v /\ first_device v' = false.
Proof.
  unfold transaction. intros H.
  destruct (scale_percent_result sel v) as [(v1 & E & Hm & Hp)|(E & _)];
    rewrite E in H; [|discriminate].
  rewrite bind_ret in H. rewrite <- Hm, <- Hp. clear E Hm Hp.
  apply snd_bind_normal in H as (v2 & Hbody & H).
  rewrite bind_emit in H. cbn [snd ret] in H. inversion H. cbn. clear H.
  destruct (usage_mode_eqb (mode v1) USAGE_MODE_SET).
  - apply snd_bind_normal in Hbody as (? & _ & Hbody). inversion Hbody. auto.
  - apply snd_bind_normal in Hbody as (value & _ & Hbody).
    apply snd_bind_normal in Hbody as (r & _ & Hbody).
    rewrite bind_emit in Hbody. cbn [snd ret] in Hbody. inversion Hbody. auto.
Qed.

(** The transaction dereferences [selected_device] only when it is null. *)
Lemma transaction_null (o : options) (sel : option DeviceId) (d : hiddev)
    (fd : Z) (path : string) (v : vars) :
  snd (transaction o sel d fd path v) = Stop NullPointer -> sel = None.
Proof.
  destruct sel as [dev|]; [|reflexivity]. unfold transaction. intros H. exfalso.
  destruct (scale_percent_result (Some dev) v) as [(v1 & E & _)|(_ & _ & E)];
    [|discriminate].
  rewrite E, bind_ret in H. clear E.
  apply snd_bind_null in H as [H|(v2 & _ & H)];
    [|rewrite bind_emit in H; discriminate].
  destruct (usage_mode_eqb (mode v1) USAGE_MODE_SET).
  - apply snd_bind_null in H as [H|(? & _ & H)]; [|discriminate].
    now apply (proj1 (set_brightness_flow d fd (brightness v1))).
  - apply snd_bind_null in H as [H|(value & _ & H)];
      [now apply (proj1 (get_brightness_flow d fd 0))|].
    apply snd_bind_null in H as [H|(r & _ & H)];
      [|rewrite bind_emit in H; discriminate].
    destruct (usage_mode_eqb (mode v1) USAGE_MODE_SETREL); [|discriminate].
    cbn [clamp_relative] in H. rewrite bind_ret in H.
    apply snd_bind_null in H as [H|(? & _ & H)];
      [now apply (proj1 (set_brightness_flow d fd _)) in H|].
    apply snd_bind_null in H as [H|(? & _ & H)]; [|discriminate].
    now apply (proj1 (get_brightness_flow d fd 1)).
Qed.

Lemma existsb_bind {A B} (p : event -> bool) (m : proc A) (f : A -> proc B) :
  existsb p (fst (bind m f))
  = existsb p (fst m) || match snd m with
                         | Normal a => existsb p (fst (f a))
                         | _ => false
                         end.
Proof.
  unfold bind. destruct (snd m); cbn [fst]; rewrite ?existsb_app, ?orb_false_r; reflexivity.
Qed.

Lemma project_existsb (p : event -> bool) (t : list event) :
  flat_map (fun e => if p e then [e] else []) t = [] -> existsb p t = false.
Proof.
  induction t as [|e t IH]; [reflexivity|]. cbn [flat_map existsb].
  destruct (p e); [discriminate|]. cbn [app orb]. exact IH.
Qed.

Lemma existsb_project (p : event -> bool) (t : list event) :
  existsb p t = false -> flat_map (fun e => if p e then [e] else []) t = [].
Proof.
  induction t as [|e t IH]; [reflexivity|]. cbn [flat_map existsb].
  destruct (p e); [discriminate|]. cbn [app orb]. exact IH.
Qed.

Lemma get_brightness_no_write (d : hiddev) (fd : Z) (n : nat) :
  existsb is_write (fst (get_brightness d fd n)) = false.
Proof.
  unfold get_brightness. step.
  destruct (fst (hd_gusage d n) <? 0); step; [reflexivity|].
  destruct (hd_greport d n <? 0); step; reflexivity.
Qed.

(** Outside the set and relative modes the transaction writes nothing. *)
Lemma transaction_reads_only (o : options) (sel : option DeviceId) (d : hiddev)
    (fd : Z) (path : string) (v : vars) :
  mode v <> USAGE_MODE_SET -> mode v <> USAGE_MODE_SETREL ->
  existsb is_write (fst (transaction o sel d fd path v)) = false.
Proof.
  intros H1 H2. unfold transaction.
  destruct (scale_percent_result sel v) as [(v1 & -> & Hm & _)|(-> & _)];
    [|reflexivity].
  rewrite bind_ret.
  replace (usage_mode_eqb (mode v1) USAGE_MODE_SET) with false
    by (rewrite Hm; destruct (mode v); simpl; congruence).
  replace (usage_mode_eqb (mode v1) USAGE_MODE_SETREL) with false
    by (rewrite Hm; destruct (mode v); simpl; congruence).
  repeat (rewrite ?existsb_bind, ?get_brightness_no_write;
          cbn [fst snd ret emit existsb is_write orb];
          try match goal with
              | |- context [match ?x with Normal _ => _ | Continue => _ | Stop _ => _ end] =>
                  destruct x
              end); reflexivity.
Qed.

(** X11. Nothing is written to a device unless the run is in the set or the
    relative mode and the device has passed every gate: it opened, it is in
    the database or the run is forced, it enumerates a Monitor Control
    application and its report structures initialised. *)
Theorem write_requires_ready (db : database) (o : options) (k : kernel)
    (m : open_flags) (n : nat) (v : vars) (path : string) :
  existsb is_write (fst (process_device db o k m n v path)) = true ->
  (mode v = USAGE_MODE_SET \/ mode v = USAGE_MODE_SETREL) /\
  ready db o (fst (k n path m)) (snd (k n path m)).
Proof.
  intros H.
  destruct (round_project (fun e => if is_write e then [e] else []) db o k m n v path)
    as [(Hp & _)|(Hm & Hready & Hp & _)].
  - intros e He. destruct e as [| fd [] rc | |[]|]; simpl in He; try discriminate; reflexivity.
  - apply project_existsb in Hp. congruence.
  - split; [|assumption].
    destruct (mode v) eqn:E; auto; exfalso; try congruence.
    cbn [is_write app] in Hp.
    rewrite (existsb_project is_write (fst (transaction _ _ _ _ _ v))) in Hp
      by (apply transaction_reads_only; congruence).
    apply project_existsb in Hp. congruence.
Qed.

Lemma write_requires_ready_witness :
  (mode (parsed "/dev/usb/hiddev0" "20000") = USAGE_MODE_SET \/
   mode (parsed "/dev/usb/hiddev0" "20000") = USAGE_MODE_SETREL) /\
  ready init_device_database plain
    (fst (single (studio_display 30000) 0%nat "/dev/usb/hiddev0" O_RDWR))
    (snd (single (studio_display 30000) 0%nat "/dev/usb/hiddev0" O_RDWR)).
Proof.
  exact (write_requires_ready init_device_database plain (single (studio_display 30000))
           O_RDWR 0 (parsed "/dev/usb/hiddev0" "20000") "/dev/usb/hiddev0" eq_refl).
Defined.

(** ** Every exit status has its cause *)

Lemma fatal_cases (o : options) (e : event) (status : Z) :
  fatal o e = Some status ->
  status = 1 /\ failed init_request e = true \/
  status = 2 /\ (failed usage_request e = true \/
                 reports_unsupported e = true /\ force o = false) \/
  status = 3 /\ failed report_request e = true.
Proof.
  unfold fatal.
  destruct (failed init_request e); [intros H; inversion H; auto|].
  destruct (failed usage_request e); [intros H; inversion H; auto|].
  destruct (failed report_request e); [intros H; inversion H; auto 6|].
  destruct (reports_unsupported e); cbn [andb]; [|discriminate].
  destruct (force o); cbn [negb]; [discriminate|]. intros H; inversion H. auto 6.
Qed.

Lemma verdict_in (o : options) (t : list event) (status : Z) :
  In status (verdict o t) -> exists e, In e t /\ fatal o e = Some status.
Proof.
  unfold verdict. intros H. apply in_flat_map in H as (e & Hin & He).
  exists e. split; [assumption|]. destruct (fatal o e); [|destruct He].
  destruct He as [->|[]]. reflexivity.
Qed.

Lemma verdict_nil (o : options) (t : list event) :
  verdict o t = [] ->
  existsb (failed init_request) t = false /\
  existsb (failed usage_request) t = false /\
  existsb (failed report_request) t = false /\
  (force o = false -> existsb reports_unsupported t = false).
Proof.
  induction t as [|e t IH]; [repeat split; reflexivity|].
  unfold verdict in *. cbn [flat_map existsb]. intros H.
  apply app_eq_nil in H as [He Ht]. destruct (IH Ht) as (-> & -> & -> & Hu).
  unfold fatal in He.
  destruct (failed init_request e); [discriminate|].
  destruct (failed usage_request e); [discriminate|].
  destruct (failed report_request e); [discriminate|].
  repeat split; try reflexivity. intros Hf. rewrite (Hu Hf), Hf in *.
  destruct (reports_unsupported e); [discriminate|reflexivity].
Qed.

Lemma device_loop_causes (db : database) (o : options) (k : kernel) (m : open_flags)
    (paths : list string) : forall n v,
  match snd (device_loop db o k m n v paths) with
  | Exited status =>
      status = 0 /\ verdict o (fst (device_loop db o k m n v paths)) = [] \/
      In status (verdict o (fst (device_loop db o k m n v paths)))
  | NullPointer => force o = true
  end.
Proof.
  induction paths as [|path rest IH]; intros n v; cbn [device_loop].
  - left. split; reflexivity.
  - pose proof (aligned_process_device o db k m n v path) as Ha. unfold aligned in Ha.
    destruct (round_project (fun _ => @nil unit) db o k m n v path (fun _ _ => eq_refl))
      as [(_ & _ & Hnull)|(_ & (_ & Hsup & _) & _ & HT)].
    + destruct (snd (process_device db o k m n v path)) as [v'| |[s|]];
        cbn [fst snd]; rewrite ?verdict_app, ?Ha; cbn [app];
        [apply IH|apply IH| |now destruct Hnull].
      right. now left.
    + destruct (snd (process_device db o k m n v path)) as [v'| |[s|]] eqn:E;
        cbn [fst snd]; rewrite ?verdict_app, ?Ha; cbn [app]; [apply IH|apply IH| |].
      * right. now left.
      * symmetry in HT. apply transaction_null in HT.
        destruct Hsup as [Hf|Hs]; [assumption|contradiction].
Qed.

(** X12. Every way a run ends has its cause in the trace. Status 0: there
    were device paths, no initialisation, usage or report request failed and
    (without the force flag) no device was reported unsupported. Status 1:
    no device path, or a failed initialisation. Status 2: a failed usage
    request, or an unsupported device without the force flag. Status 3: a
    failed report request. No other status occurs, and the null
    [selected_device] is dereferenced under the force flag only. *)
Theorem exit_status_causes (db : database) (o : options) (positional : list string)
    (k : kernel) :
  let r := run db o positional k in
  match snd r with
  | Exited status =>
      status = 0 /\ files (parse_params (initial_vars o) positional) <> [] /\
        existsb (failed init_request) (fst r) = false /\
        existsb (failed usage_request) (fst r) = false /\
        existsb (failed report_request) (fst r) = false /\
        (force o = false -> existsb reports_unsupported (fst r) = false) \/
      status = 1 /\ (files (parse_params (initial_vars o) positional) = [] \/
                     existsb (failed init_request) (fst r) = true) \/
      status = 2 /\ (existsb (failed usage_request) (fst r) = true \/
                     existsb reports_unsupported (fst r) = true /\ force o = false) \/
      status = 3 /\ existsb (failed report_request) (fst r) = true
  | NullPointer => force o = true
  end.
Proof.
  intros r. subst r. unfold run.
  destruct (files (parse_params (initial_vars o) positional)) as [|p ps] eqn:Hf.
  - cbn [snd]. right. left. auto.
  - set (v := parse_params (initial_vars o) positional) in *.
    match goal with
    | |- context [device_loop db o k ?m 0%nat v (p :: ps)] =>
        pose proof (device_loop_causes db o k m (p :: ps) 0%nat v) as H;
        set (L := device_loop db o k m 0%nat v (p :: ps)) in *
    end.
    cbn [fst snd].
    assert (Hv : verdict o ((if negb (silent o) then [Stdout MsgNotice] else []) ++ fst L)
                 = verdict o (fst L))
      by (rewrite verdict_app; destruct (silent o); reflexivity).
    assert (He : forall q, existsb q (fst L) = true ->
                 existsb q ((if negb (silent o) then [Stdout MsgNotice] else []) ++ fst L)
                 = true)
      by (intros q Hq; rewrite existsb_app, Hq; apply orb_true_r).
    destruct (snd L) as [status|]; [|assumption].
    destruct H as [[-> Hnil]|Hin].
    + left. split; [reflexivity|]. split; [discriminate|].
      apply verdict_nil. now rewrite Hv.
    + right. apply verdict_in in Hin as (e & Hin & He').
      assert (Hex : forall q, q e = true -> existsb q (fst L) = true)
        by (intros q Hq; apply existsb_exists; eauto).
      apply fatal_cases in He' as [(-> & Hc)|[(-> & Hc)|(-> & Hc)]].
      * left. split; [reflexivity|]. right. auto.
      * right. left. split; [reflexivity|].
        destruct Hc as [Hc|(Hc & Hforce)]; [left|right]; auto.
      * right. right. split; [reflexivity|]. auto.
Qed.

(** ** What is opened, and how *)

Lemma set_brightness_no_open (d : hiddev) (fd value : Z) :
  existsb is_open (fst (set_brightness d fd value)) = false.
Proof.
  unfold set_brightness. step.
  destruct (hd_susage d value <? 0); step; [reflexivity|].
  destruct (hd_sreport d <? 0); step; reflexivity.
Qed.

Lemma get_brightness_no_open (d : hiddev) (fd : Z) (n : nat) :
  existsb is_open (fst (get_brightness d fd n)) = false.
Proof.
  unfold get_brightness. step.
  destruct (fst (hd_gusage d n) <? 0); step; [reflexivity|].
  destruct (hd_greport d n <? 0); step; reflexivity.
Qed.

Lemma transaction_no_open (o : options) (sel : option DeviceId) (d : hiddev)
    (fd : Z) (path : string) (v : vars) :
  existsb is_open (fst (transaction o sel d fd path v)) = false.
Proof.
  unfold transaction.
  destruct (scale_percent_result sel v) as [(v1 & -> & _)|(-> & _)]; [|reflexivity].
  rewrite bind_ret. unfold clamp_relative.
  repeat (rewrite ?existsb_bind, ?get_brightness_no_open, ?set_brightness_no_open;
          cbn [fst snd ret emit null_dereference existsb is_open orb];
          try match goal with
              | |- context [match ?x with Normal _ => _ | Continue => _ | Stop _ => _ end] =>
                  destruct x
              | |- context [if ?b then _ else _] => destruct b
              | |- context [match ?x with Some _ => _ | None => _ end] => destruct x
              end); reflexivity.
Qed.

Lemma no_open_project {X} (g : event -> list X) (t : list event) :
  (forall e, is_open e = false -> g e = []) ->
  existsb is_open t = false -> flat_map g t = [].
Proof.
  intros Hg. induction t as [|e t IH]; [reflexivity|]. cbn [existsb flat_map].
  intros H. apply orb_false_elim in H as [He Ht]. now rewrite (Hg e He), (IH Ht).
Qed.

(** A round opens its path, once, with the flags of the run. *)
Lemma round_opens (db : database) (o : options) (k : kernel) (m : open_flags)
    (n : nat) (v : vars) (path : string) :
  opened_paths (fst (process_device db o k m n v path)) = [path] /\
  open_modes (fst (process_device db o k m n v path)) = [m].
Proof.
  split.
  - destruct (round_project (fun e => match e with Open p _ _ => [p] | _ => [] end)
                db o k m n v path) as [(Hp & _)|(_ & _ & Hp & _)].
    + intros e He. destruct e as [| fd [] rc | |[]|]; simpl in He; try discriminate; reflexivity.
    + exact Hp.
    + unfold opened_paths. rewrite Hp, no_open_project; [reflexivity| |].
      * intros e He. destruct e; try discriminate; reflexivity.
      * apply transaction_no_open.
  - destruct (round_project (fun e => match e with Open _ f _ => [f] | _ => [] end)
                db o k m n v path) as [(Hp & _)|(_ & _ & Hp & _)].
    + intros e He. destruct e as [| fd [] rc | |[]|]; simpl in He; try discriminate; reflexivity.
    + exact Hp.
    + unfold open_modes. rewrite Hp, no_open_project; [reflexivity| |].
      * intros e He. destruct e; try discriminate; reflexivity.
      * apply transaction_no_open.
Qed.

Lemma round_never_exits_0 (db : database) (o : options) (k : kernel) (m : open_flags)
    (n : nat) (v : vars) (path : string) :
  snd (process_device db o k m n v path) <> Stop (Exited 0).
Proof.
  intros E. pose proof (aligned_process_device o db k m n v path) as Ha.
  unfold aligned in Ha. rewrite E in Ha.
  assert (Hin : In 0 (verdict o (fst (process_device db o k m n v path))))
    by (rewrite Ha; now left).
  apply verdict_in in Hin as (e & _ & He).
  apply fatal_cases in He as [(? & _)|[(? & _)|(? & _)]]; discriminate.
Qed.

Lemma device_loop_opens (db : database) (o : options) (k : kernel) (m : open_flags)
    (paths : list string) : forall n v,
  exists done rest,
    paths = done ++ rest /\
    opened_paths (fst (device_loop db o k m n v paths)) = done /\
    open_modes (fst (device_loop db o k m n v paths)) = map (fun _ => m) done /\
    (snd (device_loop db o k m n v paths) = Exited 0 -> rest = []).
Proof.
  induction paths as [|path rest IH]; intros n v; cbn [device_loop].
  - exists [], []. repeat split; reflexivity.
  - destruct (round_opens db o k m n v path) as [Hp Hm].
    pose proof (round_never_exits_0 db o k m n v path) as H0.
    unfold opened_paths, open_modes in *.
    destruct (snd (process_device db o k m n v path)) as [v'| |out]; cbn [fst snd].
    + destruct (IH (S n) v') as (done & rest' & -> & Hd & Ho & He).
      exists (path :: done), rest'. rewrite !flat_map_app, Hp, Hm, Hd, Ho.
      repeat split; auto.
    + destruct (IH (S n) v) as (done & rest' & -> & Hd & Ho & He).
      exists (path :: done), rest'. rewrite !flat_map_app, Hp, Hm, Hd, Ho.
      repeat split; auto.
    + exists [path], rest. rewrite Hp, Hm. repeat split; auto.
      intros E. subst out. now destruct H0.
Qed.

Lemma opens_in_order_lemma (db : database) (o : options) (positional : list string)
    (k : kernel) :
  let v := parse_params (initial_vars o) positional in
  let flags := if usage_mode_eqb (mode v) USAGE_MODE_SET
                  || usage_mode_eqb (mode v) USAGE_MODE_SETREL
               then O_RDWR else O_RDONLY in
  exists done rest,
    files v = done ++ rest /\
    opened_paths (fst (run db o positional k)) = done /\
    open_modes (fst (run db o positional k)) = map (fun _ => flags) done /\
    (snd (run db o positional k) = Exited 0 -> rest = []).
Proof.
  intros v flags. unfold run. fold v.
  destruct (files v) as [|p ps] eqn:Hf.
  - exists [], []. repeat split; reflexivity.
  - fold flags. cbn [fst snd].
    destruct (device_loop_opens db o k flags (p :: ps) 0%nat v)
      as (done & rest & E & Hd & Ho & He).
    exists done, rest. unfold opened_paths, open_modes in *.
    rewrite !flat_map_app, Hd, Ho.
    repeat split; auto; destruct (silent o); reflexivity.
Qed.

(** X13. The device paths are opened in the order given, each once, up to
    the round in which the process exits, and all of them when the run ends
    with status 0; every [open] is read-write when the arguments select the
    set or the relative mode and read-only otherwise. *)
Theorem opens_in_order (db : database) (o : options) (positional : list string)
    (k : kernel) :
  let v := parse_params (initial_vars o) positional in
  let flags := if usage_mode_eqb (mode v) USAGE_MODE_SET
                  || usage_mode_eqb (mode v) USAGE_MODE_SETREL
               then O_RDWR else O_RDONLY in
  exists done rest,
    files v = done ++ rest /\
    opened_paths (fst (run db o positional k)) = done /\
    open_modes (fst (run db o positional k)) = map (fun _ => flags) done /\
    (snd (run db o positional k) = Exited 0 -> rest = []).
Proof. apply opens_in_order_lemma. Qed.

(** ** Runs that only read *)

Lemma round_keeps (db : database) (o : options) (k : kernel) (m : open_flags)
    (n : nat) (v v' : vars) (path : string) :
  snd (process_device db o k m n v path) = Normal v' ->
  mode v' = mode v /\ percent v' = percent v /\ first_device v' = false.
Proof.
  intros H.
  destruct (round_project (fun _ => @nil unit) db o k m n v path (fun _ _ => eq_refl))
    as [(_ & Hn & _)|(_ & _ & _ & HT)].
  - now destruct (Hn v').
  - rewrite HT in H. now apply transaction_keeps in H.
Qed.

Lemma round_write_gate (db : database) (o : options) (k : kernel)
    (m : open_flags) (n : nat) (v : vars) (path : string) :
  mode v <> USAGE_MODE_SET -> mode v <> USAGE_MODE_SETREL ->
  existsb is_write (fst (process_device db o k m n v path)) = false.
Proof.
  intros H1 H2.
  destruct (round_project (fun e => if is_write e then [e] else []) db o k m n v path)
    as [(Hp & _)|(_ & _ & Hp & _)].
  - intros e He. destruct e as [| fd [] rc | |[]|]; simpl in He; try discriminate; reflexivity.
  - now apply project_existsb in Hp.
  - cbn [is_write app] in Hp.
    rewrite (existsb_project is_write (fst (transaction _ _ _ _ _ v))) in Hp
      by (now apply transaction_reads_only).
    now apply project_existsb in Hp.
Qed.

Lemma device_loop_reads_only (db : database) (o : options) (k : kernel) (m : open_flags)
    (paths : list string) : forall n v,
  mode v <> USAGE_MODE_SET -> mode v <> USAGE_MODE_SETREL ->
  existsb is_write (fst (device_loop db o k m n v paths)) = false.
Proof.
  induction paths as [|path rest IH]; intros n v H1 H2; cbn [device_loop]; [reflexivity|].
  pose proof (round_write_gate db o k m n v path H1 H2) as Hw.
  destruct (snd (process_device db o k m n v path)) as [v'| |out] eqn:E; cbn [fst snd];
    rewrite ?existsb_app, Hw; cbn [orb]; auto.
  apply round_keeps in E as (Hm & _). apply IH; congruence.
Qed.

Lemma parse_params_detect (args : list string) : forall v,
  mode v = USAGE_MODE_DETECT ->
  parse_params v args
  = mkVars (mode v) (brightness v) (amount v) (percent v) (first_device v)
           (files v ++ args).
Proof.
  induction args as [|a args IH]; intros v Hm.
  - cbn. rewrite app_nil_r. now destruct v.
  - change (parse_params v (a :: args)) with (parse_params (parse_param v a) args).
    assert (E : parse_param v a
                = mkVars (mode v) (brightness v) (amount v) (percent v)
                         (first_device v) (files v ++ [a]))
      by (unfold parse_param; rewrite Hm; reflexivity).
    rewrite E, IH by assumption. cbn. now rewrite <- app_assoc.
Qed.

(** X14. A run without a brightness token (no positional argument that
    [number] accepts) only reads: it issues no [HIDIOCSUSAGE] and no
    [HIDIOCSREPORT], whatever the devices answer, and opens every path
    read-only. *)
Theorem query_run_reads_only (db : database) (o : options) (positional : list string)
    (k : kernel) :
  forallb (fun a => negb (number a)) positional = true ->
  existsb is_write (fst (run db o positional k)) = false /\
  Forall (eq O_RDONLY) (open_modes (fst (run db o positional k))).
Proof.
  intros Hn.
  assert (Hv : parse_params (initial_vars o) positional
               = mkVars (mode (initial_vars o)) 0 0 false true positional)
    by (rewrite (parse_params_paths positional _ Hn); reflexivity).
  assert (Hm : mode (parse_params (initial_vars o) positional) <> USAGE_MODE_SET /\
               mode (parse_params (initial_vars o) positional) <> USAGE_MODE_SETREL)
    by (rewrite Hv; cbn; destruct (detect o); split; discriminate).
  destruct Hm as [H1 H2]. split.
  - unfold run. destruct (files _); [reflexivity|]. cbn [fst].
    rewrite existsb_app, device_loop_reads_only by assumption.
    destruct (silent o); reflexivity.
  - destruct (opens_in_order_lemma db o positional k) as (done & rest & _ & _ & Ho & _).
    rewrite Ho. apply Forall_forall. intros f Hf. apply in_map_iff in Hf as (? & <- & _).
    destruct (mode (parse_params (initial_vars o) positional)); try reflexivity; congruence.
Qed.

Lemma query_run_reads_only_witness :
  existsb is_write
    (fst (run init_device_database plain ["/dev/usb/hiddev0"; "/dev/usb/hiddev1"]
            (single (studio_display 30000)))) = false /\
  Forall (eq O_RDONLY)
    (open_modes
       (fst (run init_device_database plain ["/dev/usb/hiddev0"; "/dev/usb/hiddev1"]
               (single (studio_display 30000))))).
Proof.
  exact (query_run_reads_only init_device_database plain
           ["/dev/usb/hiddev0"; "/dev/usb/hiddev1"] (single (studio_display 30000)) eq_refl).
Defined.

(** ** Detect mode *)

Lemma probe_detect (fd : Z) (t : list event) :
  forallb (is_probe fd) t = true -> forallb detect_event t = true.
Proof.
  induction t as [|e t IH]; [reflexivity|]. cbn [forallb]. intros H.
  apply andb_prop in H as [He Ht]. rewrite (IH Ht), andb_true_r.
  destruct e as [| fd' [] rc | | |]; simpl in He; try discriminate; reflexivity.
Qed.

Lemma forallb_cons {A} (p : A -> bool) (a : A) (l : list A) :
  forallb p (a :: l) = p a && forallb p l.
Proof. reflexivity. Qed.

Lemma round_detect (db : database) (o : options) (k : kernel) (m : open_flags)
    (n : nat) (v : vars) (path : string) :
  mode v = USAGE_MODE_DETECT ->
  snd (process_device db o k m n v path) = Continue /\
  forallb detect_event (fst (process_device db o k m n v path)) = true.
Proof.
  intros Hm. unfold process_device. rewrite Hm. cbn [usage_mode_eqb].
  destruct (k n path m) as [fd d]. cbn [fst snd].
  destruct (is_usb_monitor_spec d fd) as (tp & Ep & Hp). apply probe_detect in Hp.
  step'. destruct (fd <? 0); step'; [split; reflexivity|].
  rewrite Ep.
  destruct (negb (silent o) && first_device v); step';
    (destruct (existsb monitor_application (applications d)); step';
     (split; [reflexivity|];
      rewrite !forallb_cons, forallb_app, Hp; reflexivity)).
Qed.

Lemma device_loop_detect (db : database) (o : options) (k : kernel) (m : open_flags)
    (paths : list string) : forall n v,
  mode v = USAGE_MODE_DETECT ->
  snd (device_loop db o k m n v paths) = Exited 0 /\
  forallb detect_event (fst (device_loop db o k m n v paths)) = true.
Proof.
  induction paths as [|path rest IH]; intros n v Hm; cbn [device_loop];
    [split; reflexivity|].
  destruct (round_detect db o k m n v path Hm) as [-> Hd]. cbn [fst snd].
  destruct (IH (S n) v Hm) as [-> Hr]. now rewrite forallb_app, Hd, Hr.
Qed.

(** X15. Detect mode. Every positional argument, numbers included, is a
    device path; each is opened read-only, in order; the only requests
    issued are those of the probe (version, device information,
    applications): nothing is initialised, read or written; and the run ends
    with status 0 whatever the devices answer. *)
Theorem detect_mode_probes_only (db : database) (o : options)
    (positional : list string) (k : kernel) :
  detect o = true -> positional <> [] ->
  let r := run db o positional k in
  snd r = Exited 0 /\
  opened_paths (fst r) = positional /\
  Forall (eq O_RDONLY) (open_modes (fst r)) /\
  forallb detect_event (fst r) = true.
Proof.
  intros Hd Hne r.
  assert (Hv : parse_params (initial_vars o) positional
               = mkVars USAGE_MODE_DETECT 0 0 false true positional).
  { rewrite parse_params_detect; unfold initial_vars; rewrite Hd; reflexivity. }
  destruct (opens_in_order_lemma db o positional k) as (done & rest & Hf & Hp & Ho & He).
  fold r in Hp, Ho, He. rewrite Hv in Hf, Ho. cbn [files mode usage_mode_eqb orb] in Hf, Ho.
  assert (Hr : snd r = Exited 0 /\ forallb detect_event (fst r) = true).
  { subst r. unfold run. rewrite Hv. cbn [files mode usage_mode_eqb orb].
    destruct positional as [|p ps]; [now destruct Hne|]. cbn [fst snd].
    destruct (device_loop_detect db o k O_RDONLY (p :: ps) 0%nat
                (mkVars USAGE_MODE_DETECT 0 0 false true (p :: ps)) eq_refl) as [-> Hl].
    split; [reflexivity|]. rewrite forallb_app, Hl. destruct (silent o); reflexivity. }
  destruct Hr as [Hs Hall]. repeat split; auto.
  - rewrite Hp, Hf, (He Hs). now rewrite app_nil_r.
  - rewrite Ho. apply Forall_forall. intros f Hin.
    apply in_map_iff in Hin as (? & <- & _). reflexivity.
Qed.

Lemma detect_mode_probes_only_witness :
  let r := run init_device_database detecting ["/dev/usb/hiddev0"; "50"]
             (devices [keyboard; studio_display 30000]) in
  snd r = Exited 0 /\
  opened_paths (fst r) = ["/dev/usb/hiddev0"; "50"] /\
  Forall (eq O_RDONLY) (open_modes (fst r)) /\
  forallb detect_event (fst r) = true.
Proof.
  refine (detect_mode_probes_only init_device_database detecting
            ["/dev/usb/hiddev0"; "50"] (devices [keyboard; studio_display 30000])
            eq_refl _).
  discriminate.
Defined.

(** ** Paths that cannot be opened *)

Lemma device_loop_unopened (db : database) (o : options) (k : kernel) (m : open_flags)
    (paths : list string) : forall n v,
  (forall i p, fst (k i p m) < 0) ->
  device_loop db o k m n v paths
  = (flat_map (fun ip => [Open (snd ip) m (fst (k (fst ip) (snd ip) m));
                          Stderr (MsgPerror (snd ip))])
       (combine (seq n (List.length paths)) paths),
     Exited 0).
Proof.
  induction paths as [|path rest IH]; intros n v Hk; [reflexivity|].
  cbn [device_loop]. rewrite (round_open_failure db o k m n v path (Hk n path)).
  cbn [fst snd]. rewrite (IH (S n) v Hk). reflexivity.
Qed.

(** X16. Paths that cannot be opened do not fail the run. When no path can
    be opened, the run calls [open] on each path in turn, reports each
    failure, issues no request at all and ends with status 0. *)
Theorem unopened_paths_exit_0 (db : database) (o : options)
    (positional : list string) (k : kernel) :
  (forall i p m, fst (k i p m) < 0) ->
  files (parse_params (initial_vars o) positional) <> [] ->
  let r := run db o positional k in
  snd r = Exited 0 /\
  opened_paths (fst r) = files (parse_params (initial_vars o) positional) /\
  existsb is_ioctl (fst r) = false /\
  existsb is_close (fst r) = false.
Proof.
  intros Hk Hf r. subst r. unfold run.
  set (v := parse_params (initial_vars o) positional) in *.
  destruct (files v) as [|p ps] eqn:E; [now destruct Hf|].
  match goal with
  | |- context [device_loop db o k ?m 0%nat v (p :: ps)] =>
      rewrite (device_loop_unopened db o k m (p :: ps) 0%nat v (fun i q => Hk i q m));
      set (flags := m)
  end.
  cbn [fst snd]. generalize (p :: ps) as paths. generalize 0%nat as n.
  intros n paths. split; [reflexivity|].
  unfold opened_paths. rewrite flat_map_app, !existsb_app.
  replace (flat_map _ (if negb (silent o) then [Stdout MsgNotice] else [])) with (@nil string)
    by (destruct (silent o); reflexivity).
  replace (existsb is_ioctl (if negb (silent o) then [Stdout MsgNotice] else [])) with false
    by (destruct (silent o); reflexivity).
  replace (existsb is_close (if negb (silent o) then [Stdout MsgNotice] else [])) with false
    by (destruct (silent o); reflexivity).
  cbn [app orb]. revert n. induction paths as [|q qs IH]; intros n; [repeat split|].
  cbn [List.length seq combine flat_map fst snd app existsb is_ioctl is_close orb].
  destruct (IH (S n)) as (-> & -> & ->). repeat split.
Qed.

Lemma unopened_paths_exit_0_witness :
  let r := run init_device_database plain ["/dev/usb/hiddev0"; "/dev/usb/hiddev1"; "50%"]
             (fun _ _ _ => (-1, keyboard)) in
  snd r = Exited 0 /\
  opened_paths (fst r) = ["/dev/usb/hiddev0"; "/dev/usb/hiddev1"] /\
  existsb is_ioctl (fst r) = false /\
  existsb is_close (fst r) = false.
Proof.
  refine (unopened_paths_exit_0 init_device_database plain
            ["/dev/usb/hiddev0"; "/dev/usb/hiddev1"; "50%"]
            (fun _ _ _ => (-1, keyboard)) _ _).
  - intros i p m. cbn. lia.
  - vm_compute. discriminate.
Defined.

(** ** Runs on one path *)

Lemma device_loop_single (db : database) (o : options) (k : kernel) (m : open_flags)
    (n : nat) (v : vars) (path : string) :
  device_loop db o k m n v [path]
  = (fst (process_device db o k m n v path),
     match snd (process_device db o k m n v path) with
     | Stop out => out
     | _ => Exited 0
     end).
Proof.
  cbn [device_loop].
  destruct (snd (process_device db o k m n v path)); cbn [fst snd];
    rewrite ?app_nil_r; reflexivity.
Qed.

Lemma run_path_token (db : database) (o : options) (k : kernel) (path tok : string) :
  detect o = false -> number path = false -> number tok = true ->
  run db o [path; tok] k
  = ((if negb (silent o) then [Stdout MsgNotice] else [])
       ++ fst (process_device db o k O_RDWR 0 (parsed path tok) path),
     match snd (process_device db o k O_RDWR 0 (parsed path tok) path) with
     | Stop out => out
     | _ => Exited 0
     end).
Proof.
  intros Hd Hp Ht. unfold run. rewrite (parse_path_token o path tok Hd Hp Ht).
  assert (Hf : files (parsed path tok) = [path])
    by (unfold parsed; destruct (signed tok); reflexivity).
  assert (Hm : usage_mode_eqb (mode (parsed path tok)) USAGE_MODE_SET
               || usage_mode_eqb (mode (parsed path tok)) USAGE_MODE_SETREL = true)
    by (unfold parsed; destruct (signed tok); reflexivity).
  rewrite Hf, Hm, device_loop_single. reflexivity.
Qed.

Lemma run_path (db : database) (o : options) (k : kernel) (path : string) :
  detect o = false -> number path = false ->
  run db o [path] k
  = ((if negb (silent o) then [Stdout MsgNotice] else [])
       ++ fst (process_device db o k O_RDONLY 0
                 (mkVars USAGE_MODE_GET 0 0 false true [path]) path),
     match snd (process_device db o k O_RDONLY 0
                  (mkVars USAGE_MODE_GET 0 0 false true [path]) path) with
     | Stop out => out
     | _ => Exited 0
     end).
Proof.
  intros Hd Hp. unfold run.
  assert (Hv : parse_params (initial_vars o) [path]
               = mkVars USAGE_MODE_GET 0 0 false true [path]).
  { rewrite parse_params_paths by (cbn [forallb]; now rewrite Hp).
    unfold initial_vars. now rewrite Hd. }
  rewrite Hv. cbn [files mode usage_mode_eqb orb]. now rewrite device_loop_single.
Qed.

(** ** The force flag on an unsupported device *)

Lemma transaction_forced_null (o : options) (d : hiddev) (fd : Z) (path : string)
    (v : vars) :
  percent v = true \/
  mode v = USAGE_MODE_SETREL /\ 0 <= fst (hd_gusage d 0) /\ 0 <= hd_greport d 0 ->
  snd (transaction o None d fd path v) = Stop NullPointer /\
  existsb is_write (fst (transaction o None d fd path v)) = false.
Proof.
  intros H. unfold transaction.
  destruct (percent v) eqn:Hp.
  - unfold scale_percent. rewrite Hp. split; reflexivity.
  - destruct H as [H|(Hm & H1 & H2)]; [discriminate|].
    assert (Hs : scale_percent None v = ret v) by (unfold scale_percent; now rewrite Hp).
    rewrite Hs, bind_ret, Hm. cbn [usage_mode_eqb clamp_relative].
    pose proof (get_brightness_ok d fd 0 H1 H2) as Hg.
    pose proof (get_brightness_no_write d fd 0) as Hw.
    set (G := get_brightness d fd 0) in *.
    rewrite (bind_flow (bind G _)), (bind_flow G), Hg. cbn [fst snd].
    unfold null_dereference. rewrite !bind_stop. cbn [fst snd].
    split; [reflexivity|]. now rewrite app_nil_r.
Qed.

(** X17. The force flag does not give an unsupported device bounds. On a
    device that is not in the database and passes the other gates under the
    force flag, a percentage token, and a relative token once the current
    value has been read, dereference the null [selected_device]: the process
    ends there, and nothing has been written. *)
Theorem forced_unsupported_dereferences_null (db : database) (o : options)
    (k : kernel) (path tok : string) :
  detect o = false -> number path = false -> number tok = true ->
  ready db o (fst (k 0%nat path O_RDWR)) (snd (k 0%nat path O_RDWR)) ->
  is_supported db (snd (k 0%nat path O_RDWR)) = None ->
  isPercent tok = true \/
  signed tok = true /\
  0 <= fst (hd_gusage (snd (k 0%nat path O_RDWR)) 0) /\
  0 <= hd_greport (snd (k 0%nat path O_RDWR)) 0 ->
  snd (run db o [path; tok] k) = NullPointer /\
  existsb is_write (fst (run db o [path; tok] k)) = false.
Proof.
  intros Hd Hp Ht Hready Hsup Hcase.
  rewrite (run_path_token db o k path tok Hd Hp Ht). cbn [fst snd].
  set (v := parsed path tok).
  assert (Hmode : mode v <> USAGE_MODE_DETECT)
    by (subst v; unfold parsed; destruct (signed tok); discriminate).
  assert (Hv : percent v = true \/
               mode v = USAGE_MODE_SETREL /\
               0 <= fst (hd_gusage (snd (k 0%nat path O_RDWR)) 0) /\
               0 <= hd_greport (snd (k 0%nat path O_RDWR)) 0).
  { subst v. unfold parsed. destruct Hcase as [Hc|(Hs & Hc)].
    - left. destruct (signed tok); exact Hc.
    - right. rewrite Hs. split; [reflexivity|exact Hc]. }
  destruct (transaction_forced_null o (snd (k 0%nat path O_RDWR))
              (fst (k 0%nat path O_RDWR)) path v Hv) as [HT HW].
  destruct (round_transaction db o k O_RDWR 0%nat v path Hmode Hready) as [_ Hflow].
  rewrite Hsup in Hflow. rewrite Hflow, HT. split; [reflexivity|].
  rewrite existsb_app.
  replace (existsb is_write (if negb (silent o) then [Stdout MsgNotice] else [])) with false
    by (destruct (silent o); reflexivity).
  cbn [orb].
  destruct (round_project (fun e => if is_write e then [e] else []) db o k O_RDWR 0%nat v path)
    as [(Hq & _)|(_ & _ & Hq & _)].
  - intros e He. destruct e as [| fd [] rc | |[]|]; simpl in He; try discriminate; reflexivity.
  - now apply project_existsb in Hq.
  - rewrite Hsup in Hq. cbn [is_write app] in Hq.
    rewrite (existsb_project _ _ HW) in Hq. now apply project_existsb in Hq.
Qed.

Lemma forced_unsupported_dereferences_null_witness :
  snd (run init_device_database forced ["/dev/usb/hiddev0"; "+10"]
         (single other_monitor)) = NullPointer.
Proof.
  refine (proj1 (forced_unsupported_dereferences_null init_device_database forced
            (single other_monitor) "/dev/usb/hiddev0" "+10" eq_refl eq_refl eq_refl _
            eq_refl (or_intror (conj eq_refl (conj _ _))))).
  - unfold ready. cbn. repeat split; try lia; try (now left).
  - cbn. lia.
  - cbn. lia.
Defined.

(** ** The requests of a cooperative device *)

Lemma set_brightness_ok (d : hiddev) (fd value : Z) :
  0 <= hd_susage d value -> 0 <= hd_sreport d ->
  set_brightness d fd value
  = ([Ioctl fd (HIDIOCSUSAGE value) (hd_susage d value);
      Ioctl fd HIDIOCSREPORT (hd_sreport d)], Normal tt).
Proof.
  intros H1 H2. unfold set_brightness. step'.
  replace (hd_susage d value <? 0) with false by (symmetry; apply Z.ltb_ge; lia).
  step'. replace (hd_sreport d <? 0) with false by (symmetry; apply Z.ltb_ge; lia).
  reflexivity.
Qed.

Lemma get_brightness_run (d : hiddev) (fd : Z) (n : nat) :
  0 <= fst (hd_gusage d n) -> 0 <= hd_greport d n ->
  get_brightness d fd n
  = ([Ioctl fd HIDIOCGUSAGE (fst (hd_gusage d n));
      Ioctl fd HIDIOCGREPORT (hd_greport d n)], Normal (snd (hd_gusage d n))).
Proof.
  intros H1 H2. unfold get_brightness. step'.
  replace (fst (hd_gusage d n) <? 0) with false by (symmetry; apply Z.ltb_ge; lia).
  step'. replace (hd_greport d n <? 0) with false by (symmetry; apply Z.ltb_ge; lia).
  step'. reflexivity.
Qed.

Lemma transaction_query (o : options) (sel : option DeviceId) (d : hiddev) (fd : Z)
    (path : string) (v : vars) :
  mode v = USAGE_MODE_GET -> percent v = false ->
  0 <= fst (hd_gusage d 0) -> 0 <= hd_greport d 0 ->
  transaction o sel d fd path v
  = ([Ioctl fd HIDIOCGUSAGE (fst (hd_gusage d 0));
      Ioctl fd HIDIOCGREPORT (hd_greport d 0);
      Stdout (MsgBrightness (if brief o then None else Some path) (snd (hd_gusage d 0)));
      Close fd],
     Normal (mkVars (mode v) (brightness v) (amount v) (percent v) false (files v))).
Proof.
  intros Hm Hp H1 H2. unfold transaction, scale_percent. rewrite Hp, bind_ret, Hm.
  cbn [usage_mode_eqb]. rewrite (get_brightness_run d fd 0 H1 H2). step'.
  cbn [mode brightness amount percent first_device files fst snd].
  rewrite ?Hm, ?Hp. reflexivity.
Qed.

Lemma transaction_relative (o : options) (dev : DeviceId) (d : hiddev) (fd : Z)
    (path : string) (v : vars) :
  mode v = USAGE_MODE_SETREL -> percent v = false ->
  let b := C.min (brightness_max dev)
             (C.max (brightness_min dev) (C.add (snd (hd_gusage d 0)) (amount v))) in
  0 <= fst (hd_gusage d 0) -> 0 <= hd_greport d 0 ->
  0 <= hd_susage d b -> 0 <= hd_sreport d ->
  0 <= fst (hd_gusage d 1) -> 0 <= hd_greport d 1 ->
  transaction o (Some dev) d fd path v
  = ([Ioctl fd HIDIOCGUSAGE (fst (hd_gusage d 0));
      Ioctl fd HIDIOCGREPORT (hd_greport d 0);
      Ioctl fd (HIDIOCSUSAGE b) (hd_susage d b);
      Ioctl fd HIDIOCSREPORT (hd_sreport d);
      Ioctl fd HIDIOCGUSAGE (fst (hd_gusage d 1));
      Ioctl fd HIDIOCGREPORT (hd_greport d 1);
      Stdout (MsgBrightness (if brief o then None else Some path) (snd (hd_gusage d 1)));
      Close fd],
     Normal (mkVars (mode v) b (amount v) (percent v) false (files v))).
Proof.
  intros Hm Hp b H1 H2 H3 H4 H5 H6. unfold transaction, scale_percent.
  rewrite Hp, bind_ret, Hm. cbn [usage_mode_eqb clamp_relative].
  rewrite (get_brightness_run d fd 0 H1 H2). step'. fold b.
  rewrite (set_brightness_ok d fd b H3 H4). step'.
  rewrite (get_brightness_run d fd 1 H5 H6). step'.
  cbn [mode brightness amount percent first_device files fst snd].
  rewrite ?Hm, ?Hp. reflexivity.
Qed.

Lemma filter_project {A} (p : A -> bool) (t : list A) :
  filter p t = flat_map (fun e => if p e then [e] else []) t.
Proof.
  induction t as [|e t IH]; [reflexivity|]. cbn [filter flat_map].
  rewrite IH. destruct (p e); reflexivity.
Qed.

(** The trace of a round on a ready device, without the probe, the
    initialisation and the messages, is its [open] and its transaction. *)
Lemma ready_round (db : database) (o : options) (k : kernel) (m : open_flags)
    (n : nat) (v : vars) (path : string) (t : list event) (v' : vars) :
  mode v <> USAGE_MODE_DETECT ->
  ready db o (fst (k n path m)) (snd (k n path m)) ->
  transaction o (is_supported db (snd (k n path m))) (snd (k n path m))
    (fst (k n path m)) path v = (t, Normal v') ->
  forallb (fun e => negb (quiet e)) t = true ->
  filter (fun e => negb (quiet e)) (fst (process_device db o k m n v path))
  = Open path m (fst (k n path m)) :: t /\
  snd (process_device db o k m n v path) = Normal v'.
Proof.
  intros Hm Hready HT Ht.
  destruct (round_transaction db o k m n v path Hm Hready) as [_ Hflow].
  rewrite HT in Hflow. cbn [snd] in Hflow. split; [|assumption].
  rewrite filter_project.
  destruct (round_project (fun e => if negb (quiet e) then [e] else []) db o k m n v path)
    as [(_ & Hn & _)|(_ & _ & Hq & _)].
  - intros e He. now rewrite He.
  - now destruct (Hn v').
  - rewrite Hq, HT. cbn [fst]. rewrite <- filter_project.
    replace (filter (fun e => negb (quiet e)) t) with t; [reflexivity|].
    clear - Ht. induction t as [|e t IH]; [reflexivity|].
    cbn [forallb filter] in *. apply andb_prop in Ht as [He Ht]. rewrite He. f_equal. auto.
Qed.

Lemma notice_is_quiet (o : options) (t : list event) :
  filter (fun e => negb (quiet e)) ((if negb (silent o) then [Stdout MsgNotice] else []) ++ t)
  = filter (fun e => negb (quiet e)) t.
Proof. destruct (silent o); reflexivity. Qed.

(** X18. Reading the brightness. On a ready device whose get usage and get
    report succeed, a run without a token opens the path read-only, asks
    for the usage, then for the report, prints the value the usage request
    returned (behind the path, or alone under the brief flag), closes the
    handle and ends with status 0. *)
Theorem query_protocol (db : database) (o : options) (k : kernel) (path : string) :
  detect o = false -> number path = false ->
  let fd := fst (k 0%nat path O_RDONLY) in
  let d := snd (k 0%nat path O_RDONLY) in
  ready db o fd d ->
  0 <= fst (hd_gusage d 0) -> 0 <= hd_greport d 0 ->
  filter (fun e => negb (quiet e)) (fst (run db o [path] k))
  = [Open path O_RDONLY fd;
     Ioctl fd HIDIOCGUSAGE (fst (hd_gusage d 0));
     Ioctl fd HIDIOCGREPORT (hd_greport d 0);
     Stdout (MsgBrightness (if brief o then None else Some path) (snd (hd_gusage d 0)));
     Close fd] /\
  snd (run db o [path] k) = Exited 0.
Proof.
  intros Hd Hp fd d Hready H1 H2.
  rewrite (run_path db o k path Hd Hp). cbn [fst snd]. rewrite notice_is_quiet.
  set (v := mkVars USAGE_MODE_GET 0 0 false true [path]).
  destruct (ready_round db o k O_RDONLY 0%nat v path _ _
              ltac:(discriminate) Hready
              (transaction_query o _ d fd path v eq_refl eq_refl H1 H2) eq_refl)
    as [Hf Hs].
  rewrite Hf, Hs. split; reflexivity.
Qed.

Lemma query_protocol_witness :
  filter (fun e => negb (quiet e))
    (fst (run init_device_database plain ["/dev/usb/hiddev0"] (single (studio_display 30000))))
  = [Open "/dev/usb/hiddev0" O_RDONLY 3;
     Ioctl 3 HIDIOCGUSAGE 0; Ioctl 3 HIDIOCGREPORT 0;
     Stdout (MsgBrightness (Some "/dev/usb/hiddev0") 30000);
     Close 3] /\
  snd (run init_device_database plain ["/dev/usb/hiddev0"] (single (studio_display 30000)))
  = Exited 0.
Proof.
  refine (query_protocol init_device_database plain (single (studio_display 30000))
            "/dev/usb/hiddev0" eq_refl eq_refl (studio_display_ready plain 30000) _ _);
    cbn; lia.
Defined.

(** X19. A relative adjustment is read, modify, write, confirm. On a ready
    supported device that accepts every request, a signed token without a
    percent sign makes the run open the path read-write, read the usage and
    the report, set the usage to the clamped sum, send the report, read
    both again, print the value read back (not the value written), close the
    handle and end with status 0. *)
Theorem relative_protocol (db : database) (o : options) (k : kernel)
    (path tok : string) (dev : DeviceId) :
  detect o = false -> number path = false ->
  number tok = true -> signed tok = true -> isPercent tok = false ->
  let fd := fst (k 0%nat path O_RDWR) in
  let d := snd (k 0%nat path O_RDWR) in
  ready db o fd d -> is_supported db d = Some dev ->
  let b := C.min (brightness_max dev)
             (C.max (brightness_min dev) (C.add (snd (hd_gusage d 0)) (C.atoi tok))) in
  0 <= fst (hd_gusage d 0) -> 0 <= hd_greport d 0 ->
  0 <= hd_susage d b -> 0 <= hd_sreport d ->
  0 <= fst (hd_gusage d 1) -> 0 <= hd_greport d 1 ->
  filter (fun e => negb (quiet e)) (fst (run db o [path; tok] k))
  = [Open path O_RDWR fd;
     Ioctl fd HIDIOCGUSAGE (fst (hd_gusage d 0));
     Ioctl fd HIDIOCGREPORT (hd_greport d 0);
     Ioctl fd (HIDIOCSUSAGE b) (hd_susage d b);
     Ioctl fd HIDIOCSREPORT (hd_sreport d);
     Ioctl fd HIDIOCGUSAGE (fst (hd_gusage d 1));
     Ioctl fd HIDIOCGREPORT (hd_greport d 1);
     Stdout (MsgBrightness (if brief o then None else Some path) (snd (hd_gusage d 1)));
     Close fd] /\
  snd (run db o [path; tok] k) = Exited 0.
Proof.
  intros Hd Hp Ht Hs Hpc fd d Hready Hsup b H1 H2 H3 H4 H5 H6.
  rewrite (run_path_token db o k path tok Hd Hp Ht). cbn [fst snd].
  rewrite notice_is_quiet. unfold parsed. rewrite Hs, Hpc.
  set (v := mkVars USAGE_MODE_SETREL 0 (C.atoi tok) false true [path]).
  pose proof (transaction_relative o dev d fd path v eq_refl eq_refl H1 H2 H3 H4 H5 H6)
    as HT.
  rewrite <- Hsup in HT.
  destruct (ready_round db o k O_RDWR 0%nat v path _ _ ltac:(discriminate) Hready HT eq_refl)
    as [Hf Hflow].
  rewrite Hf, Hflow. split; reflexivity.
Qed.

(** The display of this example keeps multiples of 1000: 35960 is written,
    35000 is printed. *)
Lemma relative_protocol_witness :
  filter (fun e => negb (quiet e))
    (fst (run init_device_database plain ["/dev/usb/hiddev0"; "+5960"]
            (single granular_display)))
  = [Open "/dev/usb/hiddev0" O_RDWR 3;
     Ioctl 3 HIDIOCGUSAGE 0; Ioctl 3 HIDIOCGREPORT 0;
     Ioctl 3 (HIDIOCSUSAGE 35960) 0; Ioctl 3 HIDIOCSREPORT 0;
     Ioctl 3 HIDIOCGUSAGE 0; Ioctl 3 HIDIOCGREPORT 0;
     Stdout (MsgBrightness (Some "/dev/usb/hiddev0") 35000);
     Close 3] /\
  snd (run init_device_database plain ["/dev/usb/hiddev0"; "+5960"]
         (single granular_display)) = Exited 0.
Proof.
  assert (R : ready init_device_database plain 3 granular_display).
  { unfold ready. repeat split; try (vm_compute; discriminate).
    right. vm_compute. discriminate. }
  assert (Hpos : forall z, z = 0 -> 0 <= z) by (intros; lia).
  exact (relative_protocol init_device_database plain (single granular_display)
           "/dev/usb/hiddev0" "+5960"
           (mkDeviceId APPLE STUDIO_DISPLAY_27
              ("Apple Studio Display (2022, 27" ++ String (ascii_of_nat 34) ")")%string
              400 60000)
           eq_refl eq_refl eq_refl eq_refl eq_refl R eq_refl
           (Hpos _ eq_refl) (Hpos _ eq_refl) (Hpos _ eq_refl) (Hpos _ eq_refl)
           (Hpos _ eq_refl) (Hpos _ eq_refl)).
Defined.

(** ** The flags that only change the output *)

Lemma system_calls_app (t u : list event) :
  system_calls (t ++ u) = system_calls t ++ system_calls u.
Proof. apply filter_app. Qed.

Lemma same_calls_refl {A} (m : proc A) : same_calls m m.
Proof. split; reflexivity. Qed.

Lemma same_calls_bind {A B} (m m' : proc A) (f f' : A -> proc B) :
  same_calls m m' -> (forall a, same_calls (f a) (f' a)) ->
  same_calls (bind m f) (bind m' f').
Proof.
  intros [Ht Hs] Hf. unfold same_calls. rewrite !bind_flow, <- Hs.
  destruct (snd m) as [a| |out]; cbn [fst snd].
  - destruct (Hf a) as [Hta Hsa]. rewrite !system_calls_app, Ht, Hta, Hsa. now split.
  - now split.
  - now split.
Qed.

Lemma same_calls_when (c c' : bool) (e e' : event) :
  is_output e = true -> is_output e' = true ->
  same_calls (when c (emit e)) (when c' (emit e')).
Proof.
  intros He He'. unfold same_calls, system_calls.
  destruct c, c'; cbn [when emit ret fst snd filter]; rewrite ?He, ?He'; now split.
Qed.

Lemma same_calls_emit (e e' : event) :
  is_output e = true -> is_output e' = true -> same_calls (emit e) (emit e').
Proof. apply (same_calls_when true true). Qed.

Lemma transaction_same_calls (o o' : options) (sel : option DeviceId) (d : hiddev)
    (fd : Z) (path : string) (v : vars) :
  same_calls (transaction o sel d fd path v) (transaction o' sel d fd path v).
Proof.
  unfold transaction.
  apply same_calls_bind; [apply same_calls_refl|]. intros v1.
  apply same_calls_bind; [|intros; apply same_calls_refl].
  destruct (usage_mode_eqb (mode v1) USAGE_MODE_SET); [apply same_calls_refl|].
  apply same_calls_bind; [apply same_calls_refl|]. intros value.
  apply same_calls_bind; [apply same_calls_refl|]. intros r.
  apply same_calls_bind; [now apply same_calls_emit|]. intros; apply same_calls_refl.
Qed.

Lemma round_same_calls (db : database) (o o' : options) (k : kernel) (m : open_flags)
    (n : nat) (v : vars) (path : string) :
  force o = force o' ->
  same_calls (process_device db o k m n v path) (process_device db o' k m n v path).
Proof.
  intros Hf. unfold process_device. cbv zeta. rewrite <- Hf.
  apply same_calls_bind; [apply same_calls_refl|]. intros _.
  destruct (fst (k n path m) <? 0); [apply same_calls_refl|].
  apply same_calls_bind; [apply same_calls_refl|]. intros _.
  apply same_calls_bind; [now apply same_calls_when|]. intros _.
  apply same_calls_bind; [apply same_calls_refl|]. intros _.
  destruct (usage_mode_eqb (mode v) USAGE_MODE_DETECT); [apply same_calls_refl|].
  apply same_calls_bind; [apply same_calls_refl|]. intros _.
  apply same_calls_bind; [apply same_calls_refl|]. intros monitor.
  destruct (negb monitor); [apply same_calls_refl|].
  apply same_calls_bind; [apply same_calls_refl|]. intros rc.
  apply same_calls_bind; [apply same_calls_refl|]. intros _.
  apply transaction_same_calls.
Qed.

Lemma device_loop_same_calls (db : database) (o o' : options) (k : kernel)
    (m : open_flags) (paths : list string) :
  force o = force o' ->
  forall (n : nat) (v : vars),
    system_calls (fst (device_loop db o k m n v paths))
    = system_calls (fst (device_loop db o' k m n v paths)) /\
    snd (device_loop db o k m n v paths) = snd (device_loop db o' k m n v paths).
Proof.
  intros Hf. induction paths as [|path rest IH]; intros n v; [now split|].
  cbn [device_loop]. cbv zeta.
  destruct (round_same_calls db o o' k m n v path Hf) as [Ht Hs]. rewrite <- Hs.
  destruct (snd (process_device db o k m n v path)) as [v1| |out]; cbn [fst snd].
  - destruct (IH (S n) v1) as [IHt IHs]. rewrite !system_calls_app, Ht, IHt. now split.
  - destruct (IH (S n) v) as [IHt IHs]. rewrite !system_calls_app, Ht, IHt. now split.
  - now split.
Qed.

(** X20. The brief and the silent flag change what is printed and nothing
    else: whatever their values, the run opens the same paths, issues the same
    requests with the same values, closes the same handles, and ends the same
    way. *)
Theorem output_flags_leave_system_calls (db : database) (o : options) (b s : bool)
    (positional : list string) (k : kernel) :
  let o' := {| brief := b; silent := s; force := force o; detect := detect o |} in
  system_calls (fst (run db o' positional k)) = system_calls (fst (run db o positional k)) /\
  snd (run db o' positional k) = snd (run db o positional k).
Proof.
  intros o'. unfold run. cbv zeta.
  change (initial_vars o') with (initial_vars o).
  destruct (files (parse_params (initial_vars o) positional)) as [|p ps]; [now split|].
  set (v := parse_params (initial_vars o) positional).
  set (m := if usage_mode_eqb (mode v) USAGE_MODE_SET
               || usage_mode_eqb (mode v) USAGE_MODE_SETREL
            then O_RDWR else O_RDONLY).
  destruct (device_loop_same_calls db o' o k m (p :: ps) eq_refl 0%nat v) as [Ht Hs].
  cbn [fst snd]. rewrite !system_calls_app, Ht, Hs.
  split; [|reflexivity]. f_equal.
  unfold o'. cbn [silent]. now destruct s, (silent o).
Qed.

(** ** A percentage and more than one display *)

Lemma percent_value (lo hi x : Z) :
  C.in_int lo -> C.in_int hi -> lo <= hi -> 100 * (hi - lo) <= C.INT_MAX ->
  C.add (C.div (C.mul (C.min (C.max x 0) 100) (C.sub hi lo)) 100) lo
  = lo + (Z.max 0 (Z.min 100 x) * (hi - lo)) ÷ 100.
Proof.
  intros Hlo Hhi Hb H100.
  assert (Hsub : C.sub hi lo = hi - lo).
  { apply to_int_id. unfold C.in_int, C.INT_MIN, C.INT_MAX in *. lia. }
  rewrite Hsub, min_max_percent.
  set (p := Z.max 0 (Z.min 100 x)).
  assert (Hp100 : 0 <= p <= 100) by (subst p; lia).
  assert (Hprod : 0 <= p * (hi - lo) <= C.INT_MAX)
    by (unfold C.INT_MAX in *; nia).
  pose proof (quot_100_bounds _ (proj1 Hprod)) as Hq.
  assert (Hq' : (p * (hi - lo)) ÷ 100 <= hi - lo)
    by (apply quot_100_le; [lia|nia]).
  unfold C.mul, C.div, C.add.
  rewrite (to_int_id (p * (hi - lo)))
    by (unfold C.in_int, C.INT_MIN, C.INT_MAX in *; lia).
  set (q := (p * (hi - lo)) ÷ 100) in *.
  rewrite (to_int_id q) by (unfold C.in_int, C.INT_MIN, C.INT_MAX in *; lia).
  rewrite to_int_id by (unfold C.in_int, C.INT_MIN, C.INT_MAX in *; lia).
  lia.
Qed.

Lemma transaction_set_run (o : options) (sel : option DeviceId) (d : hiddev) (fd : Z)
    (path : string) (v v1 : vars) :
  scale_percent sel v = ret v1 ->
  mode v1 = USAGE_MODE_SET ->
  0 <= hd_susage d (brightness v1) -> 0 <= hd_sreport d ->
  transaction o sel d fd path v
  = ([Ioctl fd (HIDIOCSUSAGE (brightness v1)) (hd_susage d (brightness v1));
      Ioctl fd HIDIOCSREPORT (hd_sreport d);
      Close fd],
     Normal (mkVars (mode v1) (brightness v1) (amount v1) (percent v1) false (files v1))).
Proof.
  intros Hs Hm H1 H2. unfold transaction. rewrite Hs, bind_ret, Hm.
  cbn [usage_mode_eqb]. rewrite (set_brightness_ok d fd _ H1 H2). step'.
  cbn [mode brightness amount percent first_device files fst snd].
  rewrite ?Hm. reflexivity.
Qed.

Lemma parse_two_paths_token (o : options) (p1 p2 tok : string) :
  detect o = false -> number p1 = false -> number p2 = false ->
  number tok = true -> signed tok = false ->
  parse_params (initial_vars o) [p1; p2; tok]
  = mkVars USAGE_MODE_SET (C.atoi tok) 0 (isPercent tok) true [p1; p2].
Proof.
  intros Hd H1 H2 Ht Hs. unfold parse_params, initial_vars. cbn [fold_left].
  rewrite Hd. unfold parse_param at 3. cbn [mode usage_mode_eqb negb andb].
  rewrite H1. cbn [brightness amount percent first_device files app].
  unfold parse_param at 2. cbn [mode usage_mode_eqb negb andb].
  rewrite H2. cbn [brightness amount percent first_device files app].
  unfold parse_param. cbn [mode usage_mode_eqb negb andb]. rewrite Ht.
  fold (signed tok). rewrite Hs. reflexivity.
Qed.

(** X21. A percentage and two displays. The percent block rewrites the
    brightness in place and runs again for the next path, so the value of the
    second display is not computed from the percentage of the token: it is
    computed from the raw value written to the first display, clamped to 100
    as if it were a percentage. The first display is set as for a single
    path. *)
Theorem percent_of_second_display (db : database) (o : options) (k : kernel)
    (p1 p2 tok : string) (dev1 dev2 : DeviceId) :
  detect o = false -> number p1 = false -> number p2 = false ->
  number tok = true -> signed tok = false -> isPercent tok = true ->
  token_magnitude tok <= C.INT_MAX ->
  let d1 := snd (k 0%nat p1 O_RDWR) in
  let d2 := snd (k 1%nat p2 O_RDWR) in
  ready db o (fst (k 0%nat p1 O_RDWR)) d1 -> is_supported db d1 = Some dev1 ->
  ready db o (fst (k 1%nat p2 O_RDWR)) d2 -> is_supported db d2 = Some dev2 ->
  let lo1 := brightness_min dev1 in
  let hi1 := brightness_max dev1 in
  let lo2 := brightness_min dev2 in
  let hi2 := brightness_max dev2 in
  C.in_int lo1 -> C.in_int hi1 -> lo1 <= hi1 -> 100 * (hi1 - lo1) <= C.INT_MAX ->
  C.in_int lo2 -> C.in_int hi2 -> lo2 <= hi2 -> 100 * (hi2 - lo2) <= C.INT_MAX ->
  let w1 := lo1 + (Z.max 0 (Z.min 100 (token_magnitude tok)) * (hi1 - lo1)) ÷ 100 in
  0 <= hd_susage d1 w1 -> 0 <= hd_sreport d1 ->
  set_values (fst (run db o [p1; p2; tok] k))
  = [w1; lo2 + (Z.max 0 (Z.min 100 w1) * (hi2 - lo2)) ÷ 100].
Proof.
  intros Hd Hp1 Hp2 Ht Hs Hpc Hm d1 d2 Hr1 Hs1 Hr2 Hs2 lo1 hi1 lo2 hi2
    Hlo1 Hhi1 Hb1 H1001 Hlo2 Hhi2 Hb2 H1002 w1 Hw1 Hw2.
  unfold run. rewrite (parse_two_paths_token o p1 p2 tok Hd Hp1 Hp2 Ht Hs), Hpc.
  cbn [files mode usage_mode_eqb orb fst snd].
  rewrite set_values_app.
  replace (set_values (if negb (silent o) then [Stdout MsgNotice] else []))
    with (@nil Z) by (destruct (silent o); reflexivity).
  cbn [app].
  set (v0 := mkVars USAGE_MODE_SET (C.atoi tok) 0 true true [p1; p2]).
  assert (Hv : C.add (C.div (C.mul (C.min (C.max (brightness v0) 0) 100)
                               (C.sub hi1 lo1)) 100) lo1 = w1).
  { subst v0. cbn [brightness].
    rewrite (atoi_token tok Ht Hm), (unsigned_sign tok Hs), Z.mul_1_l.
    now apply percent_value. }
  pose proof (scale_percent_absolute dev1 v0 eq_refl eq_refl) as Hsc1.
  fold lo1 hi1 in Hsc1. rewrite Hv in Hsc1.
  pose proof (transaction_set_run o (Some dev1) d1 (fst (k 0%nat p1 O_RDWR)) p1 v0 _
                Hsc1 eq_refl Hw1 Hw2) as HT1.
  cbn [mode brightness amount percent files] in HT1.
  destruct (round_transaction db o k O_RDWR 0%nat v0 p1 ltac:(discriminate) Hr1)
    as [Hset1 Hflow1].
  fold d1 in Hset1, Hflow1. rewrite Hs1, HT1 in Hset1, Hflow1.
  cbn [fst snd] in Hset1, Hflow1.
  change (device_loop db o k O_RDWR 0 v0 [p1; p2])
    with (let r := process_device db o k O_RDWR 0 v0 p1 in
          match snd r with
          | Normal v' =>
              (fst r ++ fst (device_loop db o k O_RDWR 1 v' [p2]),
               snd (device_loop db o k O_RDWR 1 v' [p2]))
          | Continue =>
              (fst r ++ fst (device_loop db o k O_RDWR 1 v0 [p2]),
               snd (device_loop db o k O_RDWR 1 v0 [p2]))
          | Stop out => (fst r, out)
          end).
  cbv zeta. rewrite Hflow1. cbn [fst]. rewrite set_values_app, Hset1.
  rewrite device_loop_single. cbn [fst].
  set (v1 := mkVars USAGE_MODE_SET w1 0 true false (files v0)).
  change (process_device db o k O_RDWR 1 _ p2) with (process_device db o k O_RDWR 1 v1 p2).
  destruct (round_transaction db o k O_RDWR 1%nat v1 p2 ltac:(discriminate) Hr2)
    as [Hset2 _].
  fold d2 in Hset2. rewrite Hs2 in Hset2. rewrite Hset2.
  rewrite (transaction_set _ _ _ _ _ v1 _ (scale_percent_absolute dev2 v1 eq_refl eq_refl))
    by reflexivity.
  unfold v1. cbn [brightness]. fold lo2 hi2.
  rewrite (percent_value lo2 hi2 w1 Hlo2 Hhi2 Hb2 H1002). reflexivity.
Qed.

Lemma percent_of_second_display_witness :
  set_values (fst (run init_device_database plain
                     ["/dev/usb/hiddev0"; "/dev/usb/hiddev1"; "50%"]
                     (single (studio_display 30000))))
  = [30200; 60000].
Proof.
  assert (R : ready init_device_database plain 3 (studio_display 30000))
    by apply studio_display_ready.
  pose proof (percent_of_second_display init_device_database plain
                (single (studio_display 30000))
                "/dev/usb/hiddev0" "/dev/usb/hiddev1" "50%"
                (mkDeviceId APPLE STUDIO_DISPLAY_27
                   ("Apple Studio Display (2022, 27" ++ String (ascii_of_nat 34) ")")%string
                   400 60000)
                (mkDeviceId APPLE STUDIO_DISPLAY_27
                   ("Apple Studio Display (2022, 27" ++ String (ascii_of_nat 34) ")")%string
                   400 60000)
                eq_refl eq_refl eq_refl eq_refl eq_refl eq_refl) as H.
  cbv zeta in H.
  assert (Hm : token_magnitude "50%" <= C.INT_MAX) by (vm_compute; discriminate).
  specialize (H Hm R eq_refl R eq_refl).
  cbn [brightness_min brightness_max] in H.
  assert (I1 : C.in_int 400) by (unfold C.in_int, C.INT_MIN, C.INT_MAX; lia).
  assert (I2 : C.in_int 60000) by (unfold C.in_int, C.INT_MIN, C.INT_MAX; lia).
  assert (I3 : 400 <= 60000) by lia.
  assert (I4 : 100 * (60000 - 400) <= C.INT_MAX) by (unfold C.INT_MAX; lia).
  assert (Hpos : forall z, z = 0 -> 0 <= z) by (intros; lia).
  exact (H I1 I2 I3 I4 I1 I2 I3 I4 (Hpos _ eq_refl) (Hpos _ eq_refl)).
Defined.

(** ** A percentage after a relative token *)

Lemma parse_path_two_tokens (o : options) (path t1 t2 : string) :
  detect o = false -> number path = false ->
  number t1 = true -> signed t1 = true ->
  number t2 = true -> signed t2 = false ->
  parse_params (initial_vars o) [path; t1; t2]
  = mkVars USAGE_MODE_SET (C.atoi t2) (C.atoi t1) (isPercent t2) true [path].
Proof.
  intros Hd Hp H1 Hs1 H2 Hs2. unfold parse_params, initial_vars. cbn [fold_left].
  rewrite Hd. unfold parse_param at 3. cbn [mode usage_mode_eqb negb andb].
  rewrite Hp. cbn [brightness amount percent first_device files app].
  unfold parse_param at 2. cbn [mode usage_mode_eqb negb andb]. rewrite H1.
  fold (signed t1). rewrite Hs1.
  unfold parse_param. cbn [mode usage_mode_eqb negb andb]. rewrite H2.
  fold (signed t2). rewrite Hs2. reflexivity.
Qed.

(** X22. The percent block takes a brightness for absolute when
    [amount == 0]. A relative token that is not zero, given before an absolute
    percentage, leaves its amount behind: the block then scales the amount,
    which the absolute mode does not use, and the number of the percentage is
    written to the device as a raw value. *)
Theorem stale_amount_disables_percent (db : database) (o : options) (k : kernel)
    (path t1 t2 : string) (dev : DeviceId) :
  detect o = false -> number path = false ->
  number t1 = true -> signed t1 = true -> C.atoi t1 <> 0 ->
  number t2 = true -> signed t2 = false -> isPercent t2 = true ->
  token_magnitude t2 <= C.INT_MAX ->
  ready db o (fst (k 0%nat path O_RDWR)) (snd (k 0%nat path O_RDWR)) ->
  is_supported db (snd (k 0%nat path O_RDWR)) = Some dev ->
  set_values (fst (run db o [path; t1; t2] k)) = [token_magnitude t2].
Proof.
  intros Hd Hp H1 Hs1 Ha H2 Hs2 Hpc Hm Hready Hsup.
  unfold run. rewrite (parse_path_two_tokens o path t1 t2 Hd Hp H1 Hs1 H2 Hs2), Hpc.
  cbn [files mode usage_mode_eqb orb]. rewrite device_loop_single. cbn [fst snd].
  rewrite set_values_app.
  replace (set_values (if negb (silent o) then [Stdout MsgNotice] else []))
    with (@nil Z) by (destruct (silent o); reflexivity).
  cbn [app].
  set (v0 := mkVars USAGE_MODE_SET (C.atoi t2) (C.atoi t1) true true [path]).
  destruct (round_transaction db o k O_RDWR 0%nat v0 path ltac:(discriminate) Hready)
    as [Hset _].
  rewrite Hset, Hsup.
  rewrite (transaction_set _ _ _ _ _ v0 _ (scale_percent_relative dev v0 eq_refl Ha))
    by reflexivity.
  unfold v0. cbn [brightness].
  rewrite (atoi_token t2 H2 Hm), (unsigned_sign t2 Hs2), Z.mul_1_l. reflexivity.
Qed.

Lemma stale_amount_disables_percent_witness :
  set_values (fst (run init_device_database plain ["/dev/usb/hiddev0"; "+10"; "50%"]
                     (single (studio_display 30000)))) = [50].
Proof.
  assert (Hm : token_magnitude "50%" <= C.INT_MAX) by (vm_compute; discriminate).
  assert (Ha : C.atoi "+10" <> 0) by (vm_compute; discriminate).
  exact (stale_amount_disables_percent init_device_database plain
           (single (studio_display 30000)) "/dev/usb/hiddev0" "+10" "50%"
           (mkDeviceId APPLE STUDIO_DISPLAY_27
              ("Apple Studio Display (2022, 27" ++ String (ascii_of_nat 34) ")")%string
              400 60000)
           eq_refl eq_refl eq_refl eq_refl Ha eq_refl eq_refl eq_refl Hm
           (studio_display_ready plain 30000) eq_refl).
Defined.
